(** * keepassfunctions: the demonstration command line (demo.py) and the
      minimal demonstration (demo_minimalistic.py)

    The two scripts are glue over the [KeePassFunctions] class: they parse
    flags, open a database session, call one method and print the result.
    The class itself is a collaborator: it is a parameter of this
    development (a record of operations over an abstract world), and every
    statement below holds for every collaborator.

    A run is a function from a state (standard input still to be read, the
    collaborator's world, the events so far) to a result and a new state.
    Python exceptions are results, [try]/[except] and [with] are
    combinators, and what the program does to the outside (prints, prompts,
    collaborator calls) is recorded, in order, in the trace. *)

From stdpp Require Import base strings list gmap pretty.
From Stdlib Require Import Ascii ZArith Permutation Lia.

Open Scope string_scope.
Open Scope list_scope.

(** ** Python strings

    A [str] is a [string]; a character of the model is one [ascii] (code
    points 0 to 255). The fixed texts of the scripts are kept as they are
    in the source. *)

Definition nl : string := String (ascii_of_N 10) "".
Definition tab : string := String (ascii_of_N 9) "".

(** [s * n] *)
Fixpoint str_mul (s : string) (n : nat) : string :=
  match n with
  | 0 => ""
  | S k => s +:+ str_mul s k
  end.

(** The characters [str.strip()] removes: those for which [str.isspace]
    holds. *)
Definition is_space (a : ascii) : bool :=
  let n := N_of_ascii a in
  ((9 <=? n) && (n <=? 13) || (28 <=? n) && (n <=? 32)
   || (n =? 133) || (n =? 160))%N.

Fixpoint lstrip (s : string) : string :=
  match s with
  | String a s' => if is_space a then lstrip s' else s
  | EmptyString => EmptyString
  end.

Definition rstrip (s : string) : string := String.rev (lstrip (String.rev s)).

Definition strip (s : string) : string := rstrip (lstrip s).

Definition lower_ascii (a : ascii) : ascii :=
  let n := N_of_ascii a in
  if ((65 <=? n) && (n <=? 90)
      || (192 <=? n) && (n <=? 222) && negb (n =? 215))%N
  then ascii_of_N (n + 32) else a.

Fixpoint lower (s : string) : string :=
  match s with
  | String a s' => String (lower_ascii a) (lower s')
  | EmptyString => EmptyString
  end.

(** [s[:n]] *)
Definition str_take (n : nat) (s : string) : string := String.substring 0 n s.

(** Truth value of a [str]. *)
Definition nonempty (s : string) : bool := negb (String.eqb s "").

(** An attribute that is a [str] or [None]. *)
Definition field := option string.

Definition field_truthy (f : field) : bool :=
  match f with
  | Some s => nonempty s
  | None => false
  end.

(** [{f}] inside an f-string. *)
Definition fmt (f : field) : string := default "None" f.

(** [f or alt] inside an f-string. *)
Definition fmt_or (f : field) (alt : string) : string :=
  if field_truthy f then fmt f else alt.

(** ** Exceptions *)

Inductive exn : Type :=
  | ValueError (msg : string)
  | AttributeError (msg : string)
  | TypeError (msg : string)
  | EOFError (msg : string)
  | OtherException (msg : string)   (* any other subclass of Exception *)
  | KeyboardInterrupt
  | SystemExit (code : Z).

(** [except Exception] catches everything but the two that derive from
    [BaseException] only. *)
Definition is_Exception (e : exn) : bool :=
  match e with
  | KeyboardInterrupt | SystemExit _ => false
  | _ => true
  end.

Definition is_ValueError (e : exn) : bool :=
  match e with
  | ValueError _ => true
  | _ => false
  end.

(** [{e}] inside an f-string. *)
Definition exn_str (e : exn) : string :=
  match e with
  | ValueError m | AttributeError m | TypeError m | EOFError m
  | OtherException m => m
  | KeyboardInterrupt => ""
  | SystemExit c => pretty c
  end.

Inductive result (A : Type) : Type :=
  | Ret (a : A)
  | Raise (e : exn).
Arguments Ret {A} a.
Arguments Raise {A} e.

(** ** Entries, as the collaborator hands them back *)

Record Entry : Type := mkEntry {
  title : field;
  username : field;
  password : field;
  url : field;
  notes : field;
  autotype_sequence : field;
  uuid : N
}.

(** ** Events *)

Inductive kp_call : Type :=
  | GetCredentials (entry_title : string)
  | GetEntry (entry_title : string)       (* get_credentials(.., return_entry=True) *)
  | UseKeePassSequence (entry_title : string)
  | SearchEntries (title_term : string) (max_results : nat)
  | GetEntryCount
  | EntryExists (term : string).

Inductive event : Type :=
  | Print (text : string)                 (* print(text) *)
  | PrintCR (text : string)               (* print(text, end='\r') *)
  | Prompt (text : string)                (* input(text) *)
  | Sleep (seconds : nat)                 (* time.sleep *)
  | BasicConfig (debug : bool)            (* logging.basicConfig *)
  | ArgparseMessage (text : string)       (* usage or help text of argparse *)
  | KpOpen (path : string) (with_gui : bool) (session : option nat)
  | KpNew (path : string) (with_gui : bool)
  | KpExit (session : nat)
  | KpCall (session : nat) (call : kp_call).

(** What the user does at a prompt: type a line, or interrupt. When the
    input is exhausted [input] raises [EOFError]. *)
Inductive key : Type :=
  | Line (s : string)
  | CtrlC.

(** ** The collaborator

    Each operation takes the world and gives a result and a new world.
    [kp_open] is what [with KeePassFunctions(path, with_gui=..) as kp] runs
    before its block: the constructor and then [__enter__], which acquires
    the session. [kp_init] is the constructor called on its own, outside any
    [with]: no [__enter__] runs, so no session is acquired, and what a
    method answers on such an object is the collaborator's to say. [kp_exit]
    is [__exit__]: it is told the exception leaving the block, if any, and
    its result says whether that exception is swallowed. *)

Record Collab (W : Type) : Type := mkCollab {
  kp_open : string -> bool -> W -> result unit * W;
  kp_init : string -> bool -> W -> result unit * W;
  kp_exit : nat -> option exn -> W -> result bool * W;
  kp_get_credentials : nat -> string -> W -> result (field * field) * W;
  kp_get_entry : nat -> string -> W -> result Entry * W;
  kp_use_KeePass_sequence : nat -> string -> W -> result unit * W;
  kp_search_entries : nat -> string -> nat -> W -> result (list Entry) * W;
  kp_get_entry_count : nat -> W -> result nat * W;
  kp_entry_exists : nat -> string -> W -> result nat * W
}.
Arguments kp_open {W} _ _ _ _.
Arguments kp_init {W} _ _ _ _.
Arguments kp_exit {W} _ _ _ _.
Arguments kp_get_credentials {W} _ _ _ _.
Arguments kp_get_entry {W} _ _ _ _.
Arguments kp_use_KeePass_sequence {W} _ _ _ _.
Arguments kp_search_entries {W} _ _ _ _ _.
Arguments kp_get_entry_count {W} _ _ _.
Arguments kp_entry_exists {W} _ _ _ _.

(** ** States and the monad of runs *)

Record state (W : Type) : Type := mkState {
  trace : list event;
  stdin : list key;
  world : W;
  next_session : nat
}.
Arguments mkState {W} _ _ _ _.
Arguments trace {W} _.
Arguments stdin {W} _.
Arguments world {W} _.
Arguments next_session {W} _.

Definition M (W A : Type) : Type := state W -> result A * state W.

Section Monad.
Context {W : Type}.

Definition ret {A} (a : A) : M W A := fun s => (Ret a, s).

Definition raise {A} (e : exn) : M W A := fun s => (Raise e, s).

Definition bind {A B} (m : M W A) (k : A -> M W B) : M W B :=
  fun s =>
    match m s with
    | (Ret a, s') => k a s'
    | (Raise e, s') => (Raise e, s')
    end.

Definition emit (e : event) : M W unit :=
  fun s => (Ret tt, mkState (trace s ++ [e]) (stdin s) (world s) (next_session s)).

(** [try: m except ..: h]: [h e] is the body of the first clause that
    matches [e], if one does. *)
Definition try_except {A} (m : M W A) (h : exn -> option (M W A)) : M W A :=
  fun s =>
    match m s with
    | (Ret a, s') => (Ret a, s')
    | (Raise e, s') =>
        match h e with
        | Some k => k s'
        | None => (Raise e, s')
        end
    end.
End Monad.

Notation "x <- m ;; k" := (bind m (fun x => k))
(at level 100, m at next level, k at level 200, right associativity).
Notation "m ;;; k" := (bind m (fun _ => k))
(at level 100, k at level 200, right associativity).

(** ** The Python runtime the scripts use *)

Section Runtime.
Context {W : Type} (c : Collab W).

(** [print(text)], on a standard output that can write every text (UTF-8):
    the call does not fail. *)
Definition print (text : string) : M W unit := emit (Print text).

Definition print_cr (text : string) : M W unit := emit (PrintCR text).

(** [input(prompt)] *)
Definition input (prompt : string) : M W string :=
  fun s =>
    let tr := trace s ++ [Prompt prompt] in
    match stdin s with
    | Line l :: rest => (Ret l, mkState tr rest (world s) (next_session s))
    | CtrlC :: rest =>
        (Raise KeyboardInterrupt, mkState tr rest (world s) (next_session s))
    | [] =>
        (Raise (EOFError "EOF when reading a line"),
         mkState tr [] (world s) (next_session s))
    end.

(** [sys.exit(code)] *)
Definition sys_exit {A} (code : Z) : M W A := raise (SystemExit code).

(** [time.sleep(seconds)] *)
Definition time_sleep (seconds : nat) : M W unit := emit (Sleep seconds).

(** [logging.log(level, msg, *args)]: [level] and [msg] are both required
    positional parameters of the library function. *)
Definition logging_log (positional : list string) : M W unit :=
  match positional with
  | [] =>
      raise (TypeError
        "log() missing 2 required positional arguments: 'level' and 'msg'")
  | [_] =>
      raise (TypeError "log() missing 1 required positional argument: 'msg'")
  | _ => ret tt
  end.

(** A method call on the session [kp]. *)
Definition call {A} (kp : nat) (what : kp_call)
    (op : W -> result A * W) : M W A :=
  fun s =>
    let '(r, w) := op (world s) in
    (r, mkState (trace s ++ [KpCall kp what]) (stdin s) w (next_session s)).

(** [KeePassFunctions(path, with_gui=with_gui)] entered by a [with]: the new
    session is named by the number of objects built before it. *)
Definition open_session (path : string) (with_gui : bool) : M W nat :=
  fun s =>
    match kp_open c path with_gui (world s) with
    | (Ret _, w) =>
        (Ret (next_session s),
         mkState (trace s ++ [KpOpen path with_gui (Some (next_session s))])
                 (stdin s) w (S (next_session s)))
    | (Raise e, w) =>
        (Raise e,
         mkState (trace s ++ [KpOpen path with_gui None])
                 (stdin s) w (next_session s))
    end.

(** [KeePassFunctions(path, with_gui=with_gui)] called outside a [with]: the
    object is built and named, and nothing is entered. *)
Definition construct (path : string) (with_gui : bool) : M W nat :=
  fun s =>
    match kp_init c path with_gui (world s) with
    | (Ret _, w) =>
        (Ret (next_session s),
         mkState (trace s ++ [KpNew path with_gui])
                 (stdin s) w (S (next_session s)))
    | (Raise e, w) =>
        (Raise e,
         mkState (trace s ++ [KpNew path with_gui])
                 (stdin s) w (next_session s))
    end.

(** Leaving a [with] block with result [rb]: [__exit__] is called, and the
    exception of the block, if any, goes on unless [__exit__] returned a
    true value or raised one of its own. *)
Definition exit_session (kp : nat) (rb : result unit) : M W unit :=
  fun s =>
    let exc := match rb with Raise e => Some e | Ret _ => None end in
    let '(rx, w) := kp_exit c kp exc (world s) in
    let s' := mkState (trace s ++ [KpExit kp]) (stdin s) w (next_session s) in
    match rx, rb with
    | Raise e', _ => (Raise e', s')
    | Ret _, Ret _ => (Ret tt, s')
    | Ret suppress, Raise e => if suppress then (Ret tt, s') else (Raise e, s')
    end.

(** [with KeePassFunctions(path, with_gui=with_gui) as kp: body] *)
Definition with_session (path : string) (with_gui : bool)
    (body : nat -> M W unit) : M W unit :=
  fun s =>
    match open_session path with_gui s with
    | (Raise e, s1) => (Raise e, s1)
    | (Ret kp, s1) =>
        let '(rb, s2) := body kp s1 in
        exit_session kp rb s2
    end.

(** The [except] clauses that occur in the scripts. *)
Definition except_Exception {A} (h : exn -> M W A) : exn -> option (M W A) :=
  fun e => if is_Exception e then Some (h e) else None.

Definition except_ValueError {A} (h : exn -> M W A) : exn -> option (M W A) :=
  fun e => if is_ValueError e then Some (h e) else None.

Definition except_ValueError_Exception {A} (hv he : exn -> M W A)
    : exn -> option (M W A) :=
  fun e =>
    if is_ValueError e then Some (hv e)
    else if is_Exception e then Some (he e)
    else None.

Definition except_KeyboardInterrupt_Exception {A} (hk : M W A)
    (he : exn -> M W A) : exn -> option (M W A) :=
  fun e =>
    match e with
    | KeyboardInterrupt => Some hk
    | _ => if is_Exception e then Some (he e) else None
    end.

End Runtime.

(** ** demo.py: the handlers *)

(** ['*' * len(password) if password else 'N/A'] *)
Definition password_mask (password : field) : string :=
  match password with
  | Some p => if nonempty p then str_mul "*" (String.length p) else "N/A"
  | None => "N/A"
  end.

(** [entry.notes[:100] + '...' if entry.notes and len(entry.notes) > 100
     else entry.notes or 'N/A'] *)
Definition notes_field (notes : field) : string :=
  match notes with
  | Some n =>
      if nonempty n && (100 <? String.length n)%nat
      then str_take 100 n +:+ "..."
      else fmt_or notes "N/A"
  | None => fmt_or notes "N/A"
  end.

Definition input_method (with_gui : bool) : string :=
  if with_gui then "GUI" else "console".

(** A Python [dict] keeps its keys in the order of their first insertion;
    storing under a key that is present replaces the value in place. *)
Fixpoint dict_set {V} (k : N) (v : V) (d : list (N * V)) : list (N * V) :=
  match d with
  | [] => [(k, v)]
  | (k', v') :: d' =>
      if N.eqb k k' then (k, v) :: d' else (k', v') :: dict_set k v d'
  end.

(** [{entry.uuid: entry for entry in entries}] *)
Definition dict_by_uuid (entries : list Entry) : list (N * Entry) :=
  fold_left (fun d entry => dict_set (uuid entry) entry d) entries [].

(** [list({entry.uuid: entry for entry in entries}.values())] *)
Definition unique_by_uuid (entries : list Entry) : list Entry :=
  map snd (dict_by_uuid entries).

Section Handlers.
Context {W : Type} (c : Collab W).

Definition setup_logging (verbose : bool) : M W unit :=
  emit (BasicConfig verbose).

Definition get_full_entry_demo (db_path entry_title : string)
    (with_gui : bool) : M W unit :=
  print ("Getting full entry details for: '" +:+ entry_title
         +:+ "' (using " +:+ input_method with_gui +:+ " input)") ;;;
  try_except
    (with_session c db_path with_gui (fun kp =>
       entry <- call kp (GetEntry entry_title) (kp_get_entry c kp entry_title) ;;
       print (nl +:+ "📋 Entry Details:") ;;;
       print ("   Title: " +:+ fmt (title entry)) ;;;
       print ("   Username: " +:+ fmt_or (username entry) "N/A") ;;;
       print ("   Password: " +:+ password_mask (password entry)) ;;;
       print ("   URL: " +:+ fmt_or (url entry) "N/A") ;;;
       print ("   Notes: " +:+ notes_field (notes entry)) ;;;
       print ("   Has Autotype: "
              +:+ (if field_truthy (autotype_sequence entry) then "Yes" else "No")) ;;;
       if field_truthy (autotype_sequence entry)
       then print ("   Autotype Sequence: " +:+ fmt (autotype_sequence entry))
       else ret tt))
    (except_ValueError_Exception
       (fun e => print ("❌ Entry not found: " +:+ exn_str e))
       (fun e => print ("❌ Error getting entry details: " +:+ exn_str e))).

Definition get_credentials_demo (db_path entry_title : string)
    (with_gui : bool) : M W unit :=
  print ("Getting credentials for entry: '" +:+ entry_title
         +:+ "' (using " +:+ input_method with_gui +:+ " input)") ;;;
  try_except
    (with_session c db_path with_gui (fun kp =>
       cred <- call kp (GetCredentials entry_title)
                 (kp_get_credentials c kp entry_title) ;;
       print ("✓ Username: " +:+ fmt (fst cred)) ;;;
       print ("✓ Password: " +:+ password_mask (snd cred))))
    (except_ValueError_Exception
       (fun e => print ("❌ Entry not found: " +:+ exn_str e))
       (fun e => print ("❌ Error getting credentials: " +:+ exn_str e))).

(** [for i in range(5, 0, -1): print(.., end='\r'); time.sleep(1)],
    written for the [n] values [n, n-1, .., 1]. *)
Fixpoint countdown (n : nat) : M W unit :=
  match n with
  | 0 => ret tt
  | S k =>
      print_cr ("⏱️  Starting autotype in " +:+ pretty n +:+ " seconds...") ;;;
      time_sleep 1 ;;;
      countdown k
  end.

Definition autotype_demo (db_path entry_title : string)
    (with_gui : bool) : M W unit :=
  print ("Executing autotype sequence for entry: '" +:+ entry_title
         +:+ "' (using " +:+ input_method with_gui +:+ " input)") ;;;
  print "⚠️  Make sure the target application window is active!" ;;;
  countdown 5 ;;;
  print (nl +:+ "🚀 Executing autotype sequence...") ;;;
  try_except
    (with_session c db_path with_gui (fun kp =>
       call kp (UseKeePassSequence entry_title)
         (kp_use_KeePass_sequence c kp entry_title) ;;;
       print "✓ Autotype sequence completed successfully!"))
    (except_ValueError_Exception
       (fun e => print ("❌ Error: " +:+ exn_str e))
       (fun e => print ("❌ Error executing autotype: " +:+ exn_str e))).

(** The body of [for i, entry in enumerate(unique_entries, 1)]. *)
Definition print_match (i : nat) (entry : Entry) : M W unit :=
  print (pretty i +:+ ". 📝 " +:+ fmt (title entry)) ;;;
  (if field_truthy (username entry)
   then print ("   👤 Username: " +:+ fmt (username entry))
   else ret tt) ;;;
  (if field_truthy (url entry)
   then print ("   🌐 URL: " +:+ fmt (url entry))
   else ret tt) ;;;
  print "".

Fixpoint print_matches (i : nat) (entries : list Entry) : M W unit :=
  match entries with
  | [] => ret tt
  | entry :: rest => print_match i entry ;;; print_matches (S i) rest
  end.

Definition search_entries_demo (db_path search_term : string)
    (with_gui : bool) : M W unit :=
  print ("🔍 Searching for entries containing '" +:+ search_term
         +:+ "' (using " +:+ input_method with_gui +:+ " input):") ;;;
  try_except
    (with_session c db_path with_gui (fun kp =>
       entries <- call kp (SearchEntries search_term 10)
                    (kp_search_entries c kp search_term 10) ;;
       let unique_entries := unique_by_uuid entries in
       match unique_entries with
       | [] => print ("❌ No entries found containing '" +:+ search_term +:+ "'.")
       | _ =>
           print (nl +:+ "✓ Found " +:+ pretty (length unique_entries)
                  +:+ " matching entries:") ;;;
           print (str_mul "-" 60) ;;;
           print_matches 1 unique_entries
       end))
    (except_Exception
       (fun e => print ("❌ Error searching entries: " +:+ exn_str e))).

(** The [with] block of either pass of [gui_comparison_demo]; the two differ
    in the value of [with_gui] only. *)
Definition count_entries (db_path : string) (with_gui : bool) : M W unit :=
  with_session c db_path with_gui (fun kp =>
    entries_count <- call kp GetEntryCount (kp_get_entry_count c kp) ;;
    print ("   ✓ Successfully opened database with > "
           +:+ pretty entries_count +:+ " < entries") ;;;
    logging_log
      ["with KeePassFunctions(db_path, with_gui="
       +:+ (if with_gui then "True" else "False") +:+ ") as kp:" +:+ nl
       +:+ tab +:+ "entries_count = kp.get_entry_count()"]).

(** The first inner [try] of [gui_comparison_demo]; the result says whether
    the function goes on ([return] in the [except] clause gives [false]). *)
Definition console_pass (db_path : string) : M W bool :=
  try_except
    (count_entries db_path false ;;; ret true)
    (except_Exception
       (fun e => print ("   ❌ Console input failed: " +:+ exn_str e) ;;;
                 ret false)).

(** The second inner [try] of [gui_comparison_demo]. *)
Definition gui_pass (db_path : string) : M W unit :=
  try_except
    (count_entries db_path true)
    (except_Exception
       (fun e => print ("   ❌ GUI input failed: " +:+ exn_str e))).

Definition gui_comparison_demo : M W unit :=
  print (nl +:+ "🔄 GUI vs Console Input Comparison Demo") ;;;
  print (str_mul "=" 50) ;;;
  line <- input "Enter path to KeePass database file for comparison: " ;;
  let db_path := strip line in
  if negb (nonempty db_path)
  then print "No database path provided. Skipping comparison demo."
  else
    try_except
      (print (nl +:+ "1️⃣  Testing with CONSOLE input:") ;;;
       print "   You'll be prompted for password in the terminal" ;;;
       go_on <- console_pass db_path ;;
       if negb go_on then ret tt
       else
         print (nl +:+ "2️⃣  Testing with GUI input:") ;;;
         print "   You'll see a GUI dialog for password input" ;;;
         gui_pass db_path ;;;
         print (nl +:+ "🎉 Comparison complete! Both input methods work."))
      (except_Exception
         (fun e => print ("❌ Comparison demo failed: " +:+ exn_str e))).

End Handlers.

(** ** argparse

    The values an attribute of the parsed arguments can hold. *)

Inductive pyval : Type :=
  | VNone
  | VBool (b : bool)
  | VStr (s : string).

Definition truthy (v : pyval) : bool :=
  match v with
  | VNone => false
  | VBool b => b
  | VStr s => nonempty s
  end.

(** [str(v)], for a value handed on as a path or a title. *)
Definition pyval_str (v : pyval) : string :=
  match v with
  | VNone => "None"
  | VBool b => if b then "True" else "False"
  | VStr s => s
  end.

Inductive action : Type :=
  | Store        (* type=str: the next token is the value, default None *)
  | StoreTrue.   (* action='store_true': default False *)

Record argument : Type := mkArgument {
  option_strings : list string;
  arg_action : action
}.

(** The [parser.add_argument] calls of [main], in order. *)
Definition parser_arguments : list argument :=
  [ mkArgument ["--db"; "--database"] Store;
    mkArgument ["--gui"] StoreTrue;
    mkArgument ["--entry"] Store;
    mkArgument ["--search"] Store;
    mkArgument ["--get-credentials"] StoreTrue;
    mkArgument ["--get-full-entry"] StoreTrue;
    mkArgument ["--autotype"] StoreTrue;
    mkArgument ["--interactive"] StoreTrue;
    mkArgument ["--verbose"; "-v"] StoreTrue ].

Fixpoint dashes_to_underscores (s : string) : string :=
  match s with
  | String a s' =>
      String (if Ascii.eqb a "-" then "_"%char else a) (dashes_to_underscores s')
  | EmptyString => EmptyString
  end.

Definition is_long (o : string) : bool := String.prefix "--" o.

(** The attribute an argument is stored under: argparse takes the first
    long option string without its two dashes (the first option string
    without its dash when none is long), dashes inside turned to
    underscores. *)
Definition dest (a : argument) : string :=
  match filter (fun o => is_long o = true) (option_strings a) with
  | o :: _ => dashes_to_underscores (String.substring 2 (String.length o - 2) o)
  | [] =>
      match option_strings a with
      | o :: _ => dashes_to_underscores (String.substring 1 (String.length o - 1) o)
      | [] => ""
      end
  end.

Definition default_value (a : argument) : pyval :=
  match arg_action a with
  | Store => VNone
  | StoreTrue => VBool false
  end.

(** The namespace before any token is read: every argument at its
    default. *)
Definition defaults : gmap string pyval :=
  fold_right (fun a ns => <[dest a := default_value a]> ns) ∅ parser_arguments.

Definition find_argument (token : string) : option argument :=
  List.find (fun a => bool_decide (token ∈ option_strings a)) parser_arguments.

Inductive parse_end : Type :=
  | Parsed (ns : gmap string pyval)
  | Help
  | UsageError (msg : string).

(** The part of [parse_args] for command lines that spell the option
    strings in full, each option followed by its value as the next token.
    (argparse also takes unambiguous prefixes, [--opt=value] and values
    that look like negative numbers, all stored under the same attributes,
    and honours [--help] after a token it does not know; on such command
    lines this part answers with a usage error.) *)
Fixpoint parse_tokens (tokens : list string) (ns : gmap string pyval)
    : parse_end :=
  match tokens with
  | [] => Parsed ns
  | token :: rest =>
      if bool_decide (token = "-h") || bool_decide (token = "--help") then Help
      else
        match find_argument token with
        | None => UsageError ("unrecognized arguments: " +:+ token)
        | Some a =>
            match arg_action a with
            | StoreTrue => parse_tokens rest (<[dest a := VBool true]> ns)
            | Store =>
                match rest with
                | [] => UsageError ("argument " +:+ token +:+ ": expected one argument")
                | value :: rest' =>
                    if String.prefix "-" value && (1 <? String.length value)%nat
                    then UsageError ("argument " +:+ token +:+ ": expected one argument")
                    else parse_tokens rest' (<[dest a := VStr value]> ns)
                end
            end
        end
  end.

Section Main.
Context {W : Type} (c : Collab W).

(** [parser.parse_args()] on [sys.argv[1:]]: help leaves with status 0, a
    usage error with status 2. *)
Definition parse_args (tokens : list string) : M W (gmap string pyval) :=
  match parse_tokens tokens defaults with
  | Parsed ns => ret ns
  | Help => emit (ArgparseMessage "help") ;;; sys_exit 0
  | UsageError msg => emit (ArgparseMessage msg) ;;; sys_exit 2
  end.

(** [args.name] *)
Definition getattr (args : gmap string pyval) (name : string) : M W pyval :=
  match args !! name with
  | Some v => ret v
  | None =>
      raise (AttributeError
               ("'Namespace' object has no attribute '" +:+ name +:+ "'"))
  end.

(** [sum] of a list of truth values. *)
Fixpoint py_sum (l : list pyval) : M W nat :=
  match l with
  | [] => ret 0
  | VBool b :: rest => n <- py_sum rest ;; ret ((if b then 1 else 0) + n)
  | VNone :: _ =>
      raise (TypeError "unsupported operand type(s) for +: 'int' and 'NoneType'")
  | VStr _ :: _ =>
      raise (TypeError "unsupported operand type(s) for +: 'int' and 'str'")
  end.

(** The [if]/[elif] chain on [choice] in the body of [while True]; the
    result says whether the loop goes round again ([break] gives [false]). *)
Definition interactive_action (kp : nat) (choice : string) : M W bool :=
  if String.eqb choice "1" then
    line <- input "Enter search term: " ;;
    let search_term := strip line in
    (if nonempty search_term then
       entries <- call kp (EntryExists search_term)
                    (kp_entry_exists c kp search_term) ;;
       if negb (entries =? 0)%nat
       then print (nl +:+ "'" +:+ search_term +:+ "' was found as title for > "
                   +:+ pretty entries +:+ " < entries.")
       else print ("No entries found containing '" +:+ search_term +:+ "'.")
     else ret tt) ;;;
    ret true
  else if String.eqb choice "2" then
    line <- input "Enter entry title: " ;;
    let entry_title := strip line in
    (if nonempty entry_title then
       try_except
         (cred <- call kp (GetCredentials entry_title)
                    (kp_get_credentials c kp entry_title) ;;
          print ("Username: " +:+ fmt (fst cred)) ;;;
          print ("Password: " +:+ password_mask (snd cred)))
         (except_ValueError (fun e => print ("Error: " +:+ exn_str e)))
     else ret tt) ;;;
    ret true
  else if String.eqb choice "3" then
    line <- input "Enter entry title: " ;;
    let entry_title := strip line in
    (if nonempty entry_title then
       try_except
         (entry <- call kp (GetEntry entry_title)
                     (kp_get_entry c kp entry_title) ;;
          print (nl +:+ "Entry Details:") ;;;
          print ("Title: " +:+ fmt (title entry)) ;;;
          print ("Username: " +:+ fmt (username entry)) ;;;
          print ("Password: " +:+ password_mask (password entry)) ;;;
          print ("URL: " +:+ fmt_or (url entry) "N/A") ;;;
          print ("Notes: " +:+ fmt_or (notes entry) "N/A") ;;;
          print ("Autotype Sequence: "
                 +:+ fmt_or (autotype_sequence entry) "N/A"))
         (except_ValueError (fun e => print ("Error: " +:+ exn_str e)))
     else ret tt) ;;;
    ret true
  else if String.eqb choice "4" then
    line <- input "Enter entry title for autotype: " ;;
    let entry_title := strip line in
    (if nonempty entry_title then
       print "Make sure the target window is active!" ;;;
       input "Press Enter when ready..." ;;;
       try_except
         (call kp (UseKeePassSequence entry_title)
            (kp_use_KeePass_sequence c kp entry_title) ;;;
          print "Autotype sequence executed!")
         (except_ValueError_Exception
            (fun e => print ("Error: " +:+ exn_str e))
            (fun e => print ("Error executing autotype: " +:+ exn_str e)))
     else ret tt) ;;;
    ret true
  else if String.eqb choice "5" then
    gui_comparison_demo c ;;;
    ret true
  else if String.eqb choice "6" then
    print "Exiting interactive mode..." ;;;
    ret false
  else
    print "Invalid choice. Please enter 1-6." ;;;
    ret true.

(** One pass through the body of [while True]. *)
Definition interactive_round (kp : nat) : M W bool :=
  print (nl +:+ str_mul "=" 50) ;;;
  print "Available actions:" ;;;
  print "1. Search entries" ;;;
  print "2. Get credentials" ;;;
  print "3. Get full entry details" ;;;
  print "4. Execute autotype sequence" ;;;
  print "5. Compare GUI vs console" ;;;
  print "6. Exit" ;;;
  line <- input (nl +:+ "Enter your choice (1-6): ") ;;
  interactive_action kp (strip line).

(** [while True: ..], for at most [fuel] passes. *)
Fixpoint interactive_loop (fuel : nat) (kp : nat) : M W unit :=
  match fuel with
  | 0 => ret tt
  | S fuel' =>
      again <- interactive_round kp ;;
      if again then interactive_loop fuel' kp else ret tt
  end.

(** Every pass reads the input at least once, and reading exhausted input
    raises: one pass more than there are input items left is enough. *)
Definition passes_needed : M W nat :=
  fun s => (Ret (S (length (stdin s))), s).

Definition interactive_db_path : string := "~\Losenordslista_SD_Personlig.kdbx".

Definition interactive_mode (with_gui : bool) : M W unit :=
  print (nl +:+ "=== KeePass Interactive Mode (using "
         +:+ input_method with_gui +:+ " input) ===") ;;;
  let db_path := interactive_db_path in
  if negb (nonempty db_path)
  then print "No database path provided. Exiting."
  else
    try_except
      (with_session c db_path with_gui (fun kp =>
         fuel <- passes_needed ;;
         interactive_loop fuel kp))
      (except_Exception
         (fun e => print ("Error in interactive mode: " +:+ exn_str e))).

(** The [try] of [main]: the dispatch on the action. *)
Definition dispatch (args : gmap string pyval) (db_path : pyval) : M W unit :=
  try_except
    (search <- getattr args "search" ;;
     if truthy search then
       gui <- getattr args "gui" ;;
       search_entries_demo c (pyval_str db_path) (pyval_str search) (truthy gui)
     else
       get_credentials <- getattr args "get_credentials" ;;
       if truthy get_credentials then
         entry <- getattr args "entry" ;;
         if negb (truthy entry) then
           print "Error: --entry is required for --get-credentials" ;;;
           sys_exit 1
         else
           gui <- getattr args "gui" ;;
           get_credentials_demo c (pyval_str db_path) (pyval_str entry) (truthy gui)
       else
         get_full_entry <- getattr args "get_full_entry" ;;
         if truthy get_full_entry then
           entry <- getattr args "entry" ;;
           if negb (truthy entry) then
             print "Error: --entry is required for --get-full-entry" ;;;
             sys_exit 1
           else
             gui <- getattr args "gui" ;;
             get_full_entry_demo c (pyval_str db_path) (pyval_str entry) (truthy gui)
         else
           autotype <- getattr args "autotype" ;;
           if truthy autotype then
             entry <- getattr args "entry" ;;
             if negb (truthy entry) then
               print "Error: --entry is required for --autotype" ;;;
               sys_exit 1
             else
               gui <- getattr args "gui" ;;
               autotype_demo c (pyval_str db_path) (pyval_str entry) (truthy gui)
           else ret tt)
    (except_KeyboardInterrupt_Exception
       (print (nl +:+ nl +:+ "Operation cancelled by user.") ;;; sys_exit 0)
       (fun e => print ("Unexpected error: " +:+ exn_str e) ;;; sys_exit 1)).

(** [main], from the parsed arguments on. *)
Definition main_resolve (args : gmap string pyval) : M W unit :=
  verbose <- getattr args "verbose" ;;
  setup_logging (truthy verbose) ;;;
  interactive <- getattr args "interactive" ;;
  if truthy interactive then
    gui <- getattr args "gui" ;;
    interactive_mode (truthy gui)
  else
    db <- getattr args "db" ;;
    if negb (truthy db) then
      print "Error: --db is required for non-interactive mode" ;;;
      print "Use --interactive for interactive mode or --help for usage information" ;;;
      sys_exit 1
    else
      let db_path := db in
      a1 <- getattr args "get_credentials" ;;
      a2 <- getattr args "get_full_entry" ;;
      a3 <- getattr args "autotype" ;;
      a4 <- getattr args "list_entries" ;;
      search <- getattr args "search" ;;
      action_count <- py_sum [a1; a2; a3; a4; VBool (truthy search)] ;;
      if (action_count =? 0)%nat then
        print "Error: No action specified. Use --help for available actions." ;;;
        sys_exit 1
      else if (1 <? action_count)%nat then
        print "Error: Only one action can be specified at a time." ;;;
        sys_exit 1
      else dispatch args db_path.

Definition main (tokens : list string) : M W unit :=
  args <- parse_args tokens ;;
  main_resolve args.

Definition yes (choice : string) : bool :=
  bool_decide (choice ∈ ["y"; "yes"]).

(** The [if __name__ == "__main__"] block, on [sys.argv]. *)
Definition demo_py (argv : list string) : M W unit :=
  print "🔐 KeePass Functions Demo Script" ;;;
  print (str_mul "=" 40) ;;;
  if (length argv =? 1)%nat then
    print "No arguments provided. Here are some quick examples:" ;;;
    print (nl +:+ "Quick start options:") ;;;
    print "  python demo.py --interactive           # Interactive mode with console input" ;;;
    print "  python demo.py --interactive --gui     # Interactive mode with GUI input" ;;;
    print "  python demo.py --help                  # Show all options" ;;;
    print (nl +:+ "For GUI vs Console comparison:") ;;;
    print "  python demo.py --compare" ;;;
    print "" ;;;
    line <- input "Would you like to start in interactive mode? (y/N): " ;;
    let choice := lower (strip line) in
    (if yes choice then
       line <- input "Use GUI for password input? (y/N): " ;;
       let gui_choice := lower (strip line) in
       let use_gui := yes gui_choice in
       interactive_mode use_gui
     else print "Run with --help for full usage information.") ;;;
    sys_exit 0
  else if (length argv =? 2)%nat && bool_decide (argv !! 1 = Some "--compare") then
    gui_comparison_demo c ;;;
    sys_exit 0
  else main (drop 1 argv).

(** ** demo_minimalistic.py *)

Definition db_file : string := "C:\Passwords.kdbx".

(** The first [try]: the session [kp1] of a [with] block. *)
Definition kp1_block : M W unit :=
  try_except
    (with_session c db_file false (fun kp1 =>
       n <- call kp1 GetEntryCount (kp_get_entry_count c kp1) ;;
       print ("Antal poster: " +:+ pretty n)))
    (except_Exception
       (fun e => print ("Error when accessing database file with context manager"
                        +:+ nl +:+ exn_str e))).

(** The second [try]: the object [kp2], built by the constructor alone and
    never entered. *)
Definition kp2_block : M W unit :=
  try_except
    (kp2 <- construct c db_file false ;;
     n <- call kp2 GetEntryCount (kp_get_entry_count c kp2) ;;
     print ("Antal poster: " +:+ pretty n))
    (except_Exception
       (fun e => print ("Error when accessing database file directly:"
                        +:+ nl +:+ exn_str e))).

Definition demo_minimalistic : M W unit :=
  kp1_block ;;;
  kp2_block.

End Main.

(** How the interpreter ends on the result of the script. *)
Inductive ending : Type :=
  | Exited (status : Z)
  | Interrupted.

Definition process_end (r : result unit) : ending :=
  match r with
  | Ret _ => Exited 0
  | Raise (SystemExit code) => Exited code
  | Raise KeyboardInterrupt => Interrupted
  | Raise _ => Exited 1   (* traceback *)
  end.

(** ** Collaborators to run the scripts on

    A small database held in memory. Its search looks in the titles, then in
    the user names, then in the addresses, so an entry that matches in two
    fields comes back twice. *)

Definition sample_entries : list Entry :=
  [ mkEntry (Some "Site") (Some "alice") (Some "p4ss")
      (Some "https://site.example") (Some "first note") None 1;
    mkEntry (Some "Mail") (Some "site-admin") (Some "")
      None (Some (str_mul "n" 150)) (Some "{USERNAME}{TAB}{PASSWORD}{ENTER}") 2;
    mkEntry (Some "Bank") None None (Some "https://bank.example") (Some "") None 3 ].

Definition contains (needle : string) (f : field) : bool :=
  match f with
  | Some s =>
      existsb (fun i => String.prefix needle (String.substring i (String.length s - i) s))
        (seq 0 (S (String.length s)))
  | None => false
  end.

Definition sample_lookup (entry_title : string) : option Entry :=
  List.find (fun e => bool_decide (title e = Some entry_title)) sample_entries.

Definition sample_search (term : string) (max_results : nat) : list Entry :=
  take max_results
    (filter (fun e => contains term (title e) = true) sample_entries
     ++ filter (fun e => contains term (username e) = true) sample_entries
     ++ filter (fun e => contains term (url e) = true) sample_entries).

Definition not_found {A} (entry_title : string) : result A :=
  Raise (ValueError ("Entry '" +:+ entry_title +:+ "' not found")).

(** [console_ok] and [gui_ok] say whether the database opens with the
    password asked on the console and in a dialog. *)
Definition sample_collab (console_ok gui_ok : bool) : Collab unit :=
  {| kp_open := fun _ with_gui w =>
       if (if with_gui then gui_ok else console_ok) then (Ret tt, w)
       else (Raise (OtherException "Invalid credentials"), w);
     kp_init := fun _ _ w => (Ret tt, w);
     kp_exit := fun _ _ w => (Ret false, w);
     kp_get_credentials := fun _ t w =>
       match sample_lookup t with
       | Some e => (Ret (username e, password e), w)
       | None => (not_found t, w)
       end;
     kp_get_entry := fun _ t w =>
       match sample_lookup t with
       | Some e => (Ret e, w)
       | None => (not_found t, w)
       end;
     kp_use_KeePass_sequence := fun _ t w =>
       match sample_lookup t with
       | Some e => (Ret tt, w)
       | None => (not_found t, w)
       end;
     kp_search_entries := fun _ t n w => (Ret (sample_search t n), w);
     kp_get_entry_count := fun _ w => (Ret (length sample_entries), w);
     kp_entry_exists := fun _ t w =>
       (Ret (length (filter (fun e => title e = Some t) sample_entries)), w) |}.

Definition start (keys : list key) : state unit := mkState [] keys tt 0.

(** ** The words of the statements *)

(** The action of the argument stored under [name], if the parser has
    one. *)
Definition kind_of (name : string) : option action :=
  arg_action <$> List.find (fun a => bool_decide (dest a = name)) parser_arguments.

Definition has_kind (k : action) (v : pyval) : Prop :=
  match k, v with
  | StoreTrue, VBool _ => True
  | Store, VNone => True
  | Store, VStr _ => True
  | _, _ => False
  end.

(** A namespace as [parse_args] builds them: exactly the attributes of the
    parser, each holding a value of its kind. *)
Definition Namespace_ok (ns : gmap string pyval) : Prop :=
  forall name,
    match kind_of name, ns !! name with
    | Some k, Some v => has_kind k v
    | None, None => True
    | _, _ => False
    end.

(** An attribute read as a truth value (false when it is not there). *)
Definition flag (ns : gmap string pyval) (name : string) : bool :=
  from_option truthy false (ns !! name).

(** How many of the four actions the arguments ask for. *)
Definition actions_asked (ns : gmap string pyval) : nat :=
  length (filter (fun name => flag ns name = true)
            ["get_credentials"; "get_full_entry"; "autotype"; "search"]).

(** The events that are calls into the collaborator. *)
Definition is_collaborator_call (e : event) : bool :=
  match e with
  | KpOpen _ _ _ | KpNew _ _ | KpExit _ | KpCall _ _ => true
  | _ => false
  end.

(** What a pass of the comparison on [db_path] with [with_gui] can do to the
    outside: open that database that way, ask for the number of entries,
    print it, and leave the session. *)
Definition pass_event (db_path : string) (with_gui : bool) (e : event) : Prop :=
  match e with
  | KpOpen p g _ => p = db_path /\ g = with_gui
  | KpCall _ GetEntryCount => True
  | KpExit _ => True
  | Print t =>
      exists n : nat,
        t = "   ✓ Successfully opened database with > " +:+ pretty n +:+ " < entries"
  | _ => False
  end.



Definition printed {W} (s : state W) (text : string) : state W :=
  mkState (trace s ++ [Print text]) (stdin s) (world s) (next_session s).

(** The lines [get_full_entry_demo] prints for an entry, [shown] being the
    notes field. *)
Definition entry_details (entry : Entry) (shown : string) : list event :=
  [ Print (nl +:+ "📋 Entry Details:");
    Print ("   Title: " +:+ fmt (title entry));
    Print ("   Username: " +:+ fmt_or (username entry) "N/A");
    Print ("   Password: " +:+ password_mask (password entry));
    Print ("   URL: " +:+ fmt_or (url entry) "N/A");
    Print ("   Notes: " +:+ shown);
    Print ("   Has Autotype: "
           +:+ (if field_truthy (autotype_sequence entry) then "Yes" else "No")) ]
  ++ (if field_truthy (autotype_sequence entry)
      then [Print ("   Autotype Sequence: " +:+ fmt (autotype_sequence entry))]
      else []).

(** The keys of a list in the order in which they are first seen. *)
Fixpoint first_seen (keys : list N) : list N :=
  match keys with
  | [] => []
  | k :: rest => k :: filter (fun k' => k' <> k) (first_seen rest)
  end.

(** The lines [search_entries_demo] prints for the match numbered [i]. *)
Definition match_lines (i : nat) (entry : Entry) : list event :=
  [Print (pretty i +:+ ". 📝 " +:+ fmt (title entry))]
  ++ (if field_truthy (username entry)
      then [Print ("   👤 Username: " +:+ fmt (username entry))] else [])
  ++ (if field_truthy (url entry)
      then [Print ("   🌐 URL: " +:+ fmt (url entry))] else [])
  ++ [Print ""].

(** The report of a search: the matches are numbered from 1 in the order of
    the list. *)
Definition search_report (search_term : string) (found : list Entry) : list event :=
  match found with
  | [] => [Print ("❌ No entries found containing '" +:+ search_term +:+ "'.")]
  | _ =>
      [ Print (nl +:+ "✓ Found " +:+ pretty (length found) +:+ " matching entries:");
        Print (str_mul "-" 60) ]
      ++ concat (imap (fun j entry => match_lines (1 + j) entry) found)
  end.

(** The state in which the block of a [with] starts when the database
    opens. *)
Definition opened_state {W} (path : string) (with_gui : bool) (w1 : W)
    (s : state W) : state W :=
  mkState (trace s ++ [KpOpen path with_gui (Some (next_session s))])
          (stdin s) w1 (S (next_session s)).

(** The [except] clauses only add to the trace. *)
Definition appends {W A} (h : exn -> option (M W A)) : Prop :=
  forall e k s, h e = Some k -> exists d, trace (k s).2 = trace s ++ d.

(** A relation between the state before and the state after holds of every
    run of [m]. *)
Definition respects {W A} (R : state W -> state W -> Prop) (m : M W A) : Prop :=
  forall s, R s (m s).2.

(** The sessions a stretch of trace opens and the sessions it leaves. *)
Definition opened (events : list event) : list nat :=
  omap (fun e => match e with KpOpen _ _ (Some kp) => Some kp | _ => None end)
    events.

Definition released (events : list event) : list nat :=
  omap (fun e => match e with KpExit kp => Some kp | _ => None end) events.

(** The run opened sessions under fresh names and left each of them once,
    and left no other. *)
Definition scoped {W} (s s' : state W) : Prop :=
  exists (events : list event) (k : nat),
    trace s' = trace s ++ events
    /\ next_session s' = next_session s + k
    /\ opened events = seq (next_session s) k
    /\ released events ≡ₚ opened events.

(** The run read from the input and put nothing back. *)
Definition reads_on {W} (s s' : state W) : Prop :=
  length (stdin s') <= length (stdin s).

(** The ways into demo.py: its handlers called on their own, interactive
    mode, [main] on the arguments, and the script on [sys.argv]. *)
Inductive entry_point : Type :=
  | Get_credentials_demo (db_path entry_title : string) (with_gui : bool)
  | Get_full_entry_demo (db_path entry_title : string) (with_gui : bool)
  | Autotype_demo (db_path entry_title : string) (with_gui : bool)
  | Search_entries_demo (db_path search_term : string) (with_gui : bool)
  | Gui_comparison_demo
  | Interactive_mode (with_gui : bool)
  | Main (tokens : list string)
  | Demo_py (argv : list string).

Definition run_entry {W} (c : Collab W) (ep : entry_point) : M W unit :=
  match ep with
  | Get_credentials_demo p t g => get_credentials_demo c p t g
  | Get_full_entry_demo p t g => get_full_entry_demo c p t g
  | Autotype_demo p t g => autotype_demo c p t g
  | Search_entries_demo p t g => search_entries_demo c p t g
  | Gui_comparison_demo => gui_comparison_demo c
  | Interactive_mode g => interactive_mode c g
  | Main tokens => main c tokens
  | Demo_py argv => demo_py c argv
  end.

(** The collaborator [c] with every password it hands back replaced: [f w p]
    stands in for the password [p] handed back in the world [w]. *)
Definition replace_password (g : string -> string) (e : Entry) : Entry :=
  mkEntry (title e) (username e) (g <$> password e) (url e) (notes e)
          (autotype_sequence e) (uuid e).

Definition with_passwords {W} (f : W -> string -> string) (c : Collab W)
    : Collab W :=
  {| kp_open := kp_open c;
     kp_init := kp_init c;
     kp_exit := kp_exit c;
     kp_get_credentials := fun kp t w =>
       match kp_get_credentials c kp t w with
       | (Ret (user, pass), w') => (Ret (user, f w <$> pass), w')
       | (Raise e, w') => (Raise e, w')
       end;
     kp_get_entry := fun kp t w =>
       match kp_get_entry c kp t w with
       | (Ret entry, w') => (Ret (replace_password (f w) entry), w')
       | (Raise e, w') => (Raise e, w')
       end;
     kp_use_KeePass_sequence := kp_use_KeePass_sequence c;
     kp_search_entries := fun kp t n w =>
       match kp_search_entries c kp t n w with
       | (Ret entries, w') => (Ret (replace_password (f w) <$> entries), w')
       | (Raise e, w') => (Raise e, w')
       end;
     kp_get_entry_count := kp_get_entry_count c;
     kp_entry_exists := kp_entry_exists c |}.

(** Two runs that do the same from every state. *)
Definition same {W A} (m1 m2 : M W A) : Prop := forall s, m1 s = m2 s.



(** The arguments of [--db other.kdbx --interactive --gui]. *)
Definition sample_interactive_args : gmap string pyval :=
  <["gui" := VBool true]>
    (<["interactive" := VBool true]> (<["db" := VStr "other.kdbx"]> defaults)).



(** The state after a stretch of events in which nothing was read and no
    session was opened. *)
Definition logged {W} (s : state W) (events : list event) : state W :=
  mkState (trace s ++ events) (stdin s) (world s) (next_session s).

(** The events of the countdown of [autotype_demo] from [n]. *)
Fixpoint countdown_events (n : nat) : list event :=
  match n with
  | 0 => []
  | S k =>
      [PrintCR ("⏱️  Starting autotype in " +:+ pretty n +:+ " seconds..."); Sleep 1]
      ++ countdown_events k
  end.

(** The menu of interactive mode, up to and with its prompt. *)
Definition menu_events : list event :=
  [ Print (nl +:+ str_mul "=" 50);
    Print "Available actions:";
    Print "1. Search entries";
    Print "2. Get credentials";
    Print "3. Get full entry details";
    Print "4. Execute autotype sequence";
    Print "5. Compare GUI vs console";
    Print "6. Exit";
    Prompt (nl +:+ "Enter your choice (1-6): ") ].

(** A line that, trimmed, is none of the six choices. *)
Definition invalid_choice (line : string) : Prop :=
  strip line ∉ ["1"; "2"; "3"; "4"; "5"; "6"].

(** The run read nothing. *)
Definition reads_nothing {W} (s s' : state W) : Prop := stdin s' = stdin s.


(** An event that is neither an attempt to open a database with graphical
    input nor the closing line of the comparison. *)
Definition no_gui_pass (e : event) : Prop :=
  match e with
  | KpOpen _ true _ => False
  | Print t => t <> nl +:+ "🎉 Comparison complete! Both input methods work."
  | _ => True
  end.

(** The arguments of [--db x.kdbx --get-full-entry]. *)
Definition sample_full_entry_args : gmap string pyval :=
  <["get_full_entry" := VBool true]> (<["db" := VStr "x.kdbx"]> defaults).

(** * Properties *)

(** ** Strings *)
Lemma str_mul_length (n : nat) : String.length (str_mul "*" n) = n.
Proof. induction n as [|n IH]; simpl; [reflexivity | f_equal; exact IH]. Qed.

Lemma nonempty_false (s : string) : nonempty s = false <-> s = "".
Proof.
  unfold nonempty. destruct (String.eqb_spec s ""); simpl; split; congruence.
Qed.

Lemma nonempty_true (s : string) : nonempty s = true <-> s <> "".
Proof.
  unfold nonempty. destruct (String.eqb_spec s ""); simpl; split; congruence.
Qed.

Lemma nonempty_length (s : string) : nonempty s = negb (String.length s =? 0)%nat.
Proof. destruct s; reflexivity. Qed.

(** ** The attributes the parser defines *)

Lemma kind_of_dest (a : argument) :
  In a parser_arguments -> kind_of (dest a) = Some (arg_action a).
Proof.
  intros Ha. simpl in Ha.
  repeat (destruct Ha as [<- | Ha]; [vm_compute; reflexivity |]).
  destruct Ha.
Qed.

Lemma find_argument_In (token : string) (a : argument) :
  find_argument token = Some a -> In a parser_arguments.
Proof. intros H. apply find_some in H. tauto. Qed.

Lemma Namespace_ok_insert (ns : gmap string pyval) (a : argument) (v : pyval) :
  In a parser_arguments -> has_kind (arg_action a) v ->
  Namespace_ok ns -> Namespace_ok (<[dest a := v]> ns).
Proof.
  intros Ha Hv Hns name.
  destruct (decide (dest a = name)) as [<- | Hne].
  - rewrite (kind_of_dest a Ha), lookup_insert_eq. exact Hv.
  - rewrite lookup_insert_ne by exact Hne. apply Hns.
Qed.

Lemma has_kind_default (a : argument) : has_kind (arg_action a) (default_value a).
Proof. unfold default_value. destruct (arg_action a); exact I. Qed.

Lemma lookup_defaults_of (l : list argument) (name : string) :
  fold_right (fun a ns => <[dest a := default_value a]> ns) (∅ : gmap string pyval) l
    !! name
  = default_value <$> List.find (fun a => bool_decide (dest a = name)) l.
Proof.
  induction l as [|a l IH]; simpl.
  - apply lookup_empty.
  - destruct (decide (dest a = name)) as [E | E].
    + rewrite bool_decide_eq_true_2 by exact E. rewrite E. apply lookup_insert_eq.
    + rewrite bool_decide_eq_false_2 by exact E.
      rewrite lookup_insert_ne by exact E. exact IH.
Qed.

Lemma Namespace_ok_defaults : Namespace_ok defaults.
Proof.
  intros name. unfold defaults, kind_of. rewrite lookup_defaults_of.
  destruct (List.find _ parser_arguments) as [a|]; simpl;
    [apply has_kind_default | exact I].
Qed.

Lemma parse_tokens_ok (tokens : list string) (ns ns' : gmap string pyval) :
  Namespace_ok ns -> parse_tokens tokens ns = Parsed ns' -> Namespace_ok ns'.
Proof.
  remember (length tokens) as n eqn:Hn. revert tokens ns Hn.
  induction n as [n IH] using lt_wf_ind.
  intros tokens ns -> Hns. destruct tokens as [|token rest]; simpl.
  - intros [= <-]. exact Hns.
  - destruct (_ || _); [discriminate |].
    destruct (find_argument token) as [a|] eqn:Ea; [| discriminate].
    pose proof (find_argument_In _ _ Ea) as Hin.
    destruct (arg_action a) eqn:Ek.
    + destruct rest as [|value rest']; [discriminate |].
      destruct (_ && _); [discriminate |].
      apply (IH (length rest')); [simpl; lia | reflexivity |].
      apply Namespace_ok_insert; [exact Hin | rewrite Ek; exact I | exact Hns].
    + apply (IH (length rest)); [simpl; lia | reflexivity |].
      apply Namespace_ok_insert; [exact Hin | rewrite Ek; exact I | exact Hns].
Qed.

(** What a namespace of the parser answers to [getattr]. *)
Lemma Namespace_ok_store_true (ns : gmap string pyval) (name : string) :
  Namespace_ok ns -> kind_of name = Some StoreTrue ->
  ns !! name = Some (VBool (flag ns name)).
Proof.
  intros Hns Hk. specialize (Hns name). rewrite Hk in Hns. unfold flag.
  destruct (ns !! name) as [[| b | s]|]; simpl in *; try contradiction.
  reflexivity.
Qed.

Lemma Namespace_ok_store (ns : gmap string pyval) (name : string) :
  Namespace_ok ns -> kind_of name = Some Store ->
  exists v, ns !! name = Some v /\ truthy v = flag ns name.
Proof.
  intros Hns Hk. specialize (Hns name). rewrite Hk in Hns. unfold flag.
  destruct (ns !! name) as [v|]; [| contradiction].
  exists v. split; reflexivity.
Qed.

Lemma Namespace_ok_undefined (ns : gmap string pyval) (name : string) :
  Namespace_ok ns -> kind_of name = None -> ns !! name = None.
Proof.
  intros Hns Hk. specialize (Hns name). rewrite Hk in Hns.
  destruct (ns !! name); [contradiction | reflexivity].
Qed.

(** ** The action count of [main] (C1, C2) *)
Section Resolver.
Context {W : Type} (c : Collab W).

Lemma getattr_defined (ns : gmap string pyval) (name : string) (v : pyval) :
  ns !! name = Some v -> getattr (W := W) ns name = ret v.
Proof. intros H. unfold getattr. rewrite H. reflexivity. Qed.

Lemma getattr_undefined (ns : gmap string pyval) (name : string) :
  ns !! name = None ->
  getattr (W := W) ns name
  = raise (AttributeError ("'Namespace' object has no attribute '" +:+ name +:+ "'")).
Proof. intros H. unfold getattr. rewrite H. reflexivity. Qed.

(** With [--db], [main] stops at [args.list_entries]: nothing is printed
    and no session is opened. *)
Lemma main_resolve_with_db (ns : gmap string pyval) (s : state W) :
  Namespace_ok ns -> flag ns "interactive" = false -> flag ns "db" = true ->
  main_resolve c ns s
  = (Raise (AttributeError "'Namespace' object has no attribute 'list_entries'"),
     mkState (trace s ++ [BasicConfig (flag ns "verbose")])
             (stdin s) (world s) (next_session s)).
Proof.
  intros Hns Hi Hdb. unfold main_resolve.
  rewrite (getattr_defined _ _ _ (Namespace_ok_store_true ns "verbose" Hns eq_refl)).
  rewrite (getattr_defined _ _ _ (Namespace_ok_store_true ns "interactive" Hns eq_refl)).
  destruct (Namespace_ok_store ns "db" Hns eq_refl) as (db & Hdb1 & Hdb2).
  rewrite (getattr_defined _ _ _ Hdb1).
  rewrite (getattr_defined _ _ _ (Namespace_ok_store_true ns "get_credentials" Hns eq_refl)).
  rewrite (getattr_defined _ _ _ (Namespace_ok_store_true ns "get_full_entry" Hns eq_refl)).
  rewrite (getattr_defined _ _ _ (Namespace_ok_store_true ns "autotype" Hns eq_refl)).
  rewrite (getattr_undefined _ _ (Namespace_ok_undefined ns "list_entries" Hns eq_refl)).
  unfold bind, ret, raise, setup_logging, emit. cbn [truthy].
  rewrite Hi, Hdb2, Hdb. reflexivity.
Qed.

(** Without [--db], [main] prints the two lines of the usage error and
    leaves with status 1. *)
Lemma main_resolve_without_db (ns : gmap string pyval) (s : state W) :
  Namespace_ok ns -> flag ns "interactive" = false -> flag ns "db" = false ->
  main_resolve c ns s
  = (Raise (SystemExit 1),
     mkState (trace s ++ [BasicConfig (flag ns "verbose");
                          Print "Error: --db is required for non-interactive mode";
                          Print "Use --interactive for interactive mode or --help for usage information"])
             (stdin s) (world s) (next_session s)).
Proof.
  intros Hns Hi Hdb. unfold main_resolve.
  rewrite (getattr_defined _ _ _ (Namespace_ok_store_true ns "verbose" Hns eq_refl)).
  rewrite (getattr_defined _ _ _ (Namespace_ok_store_true ns "interactive" Hns eq_refl)).
  destruct (Namespace_ok_store ns "db" Hns eq_refl) as (db & Hdb1 & Hdb2).
  rewrite (getattr_defined _ _ _ Hdb1).
  unfold bind, ret, raise, setup_logging, print, sys_exit, raise, emit. cbn [truthy].
  rewrite Hi, Hdb2, Hdb. cbn. rewrite <- !app_assoc. reflexivity.
Qed.

Lemma parse_args_parsed (tokens : list string) (ns : gmap string pyval) (s : state W) :
  parse_tokens tokens defaults = Parsed ns -> parse_args tokens s = (Ret ns, s).
Proof. intros H. unfold parse_args. rewrite H. reflexivity. Qed.

End Resolver.

(** C1. Without [--interactive] and with [--db], [main] fails while it
    builds the list of which the action count is the sum: it reads
    [args.list_entries], an attribute no [add_argument] call of the parser
    defines, so whatever the command line the run ends there with an
    [AttributeError]; all that has happened by then is the logging set-up.
    Neither the two checks on the count nor the dispatch to a handler is
    reached: nothing has been printed and no session opened. *)
Theorem action_count_reads_undefined_attribute
    {W} (c : Collab W) (tokens : list string) (args : gmap string pyval)
    (s : state W) :
  parse_tokens tokens defaults = Parsed args ->
  flag args "interactive" = false ->
  flag args "db" = true ->
  args !! "list_entries" = None
  /\ main c tokens s
     = (Raise (AttributeError "'Namespace' object has no attribute 'list_entries'"),
        mkState (trace s ++ [BasicConfig (flag args "verbose")])
                (stdin s) (world s) (next_session s)).
Proof.
  intros Hparse Hi Hdb.
  pose proof (parse_tokens_ok _ _ _ Namespace_ok_defaults Hparse) as Hns.
  split.
  - apply Namespace_ok_undefined; [exact Hns | reflexivity].
  - unfold main, bind. rewrite (parse_args_parsed tokens args s Hparse).
    apply main_resolve_with_db; assumption.
Qed.

Lemma action_count_reads_undefined_attribute_witness :
  exists args,
    parse_tokens ["--db"; "x.kdbx"; "--entry"; "Site"; "--get-credentials"] defaults
    = Parsed args
    /\ main (sample_collab true true)
         ["--db"; "x.kdbx"; "--entry"; "Site"; "--get-credentials"] (start [])
       = (Raise (AttributeError "'Namespace' object has no attribute 'list_entries'"),
          mkState [BasicConfig false] [] tt 0).
Proof.
  eexists. split; [reflexivity |].
  refine (proj2 (action_count_reads_undefined_attribute (sample_collab true true)
            ["--db"; "x.kdbx"; "--entry"; "Site"; "--get-credentials"] _ (start [])
            eq_refl _ _)); vm_compute; reflexivity.
Defined.

Lemma demo_py_reaches_main {W} (c : Collab W) (prog : string)
    (tokens : list string) (s : state W) :
  tokens <> [] -> tokens <> ["--compare"] ->
  demo_py c (prog :: tokens) s
  = main c tokens
      (mkState (trace s ++ [Print "🔐 KeePass Functions Demo Script";
                            Print (str_mul "=" 40)])
               (stdin s) (world s) (next_session s)).
Proof.
  intros Hne Hcmp. unfold demo_py, bind at 1 2, print, emit.
  cbn [trace stdin world next_session].
  rewrite <- app_assoc. cbn [app].
  destruct tokens as [|t [|t' rest]]; [contradiction | |]; cbn [length Nat.eqb andb drop].
  - rewrite bool_decide_eq_false_2; [reflexivity |].
    cbn. intros [= ->]. contradiction.
  - reflexivity.
Qed.

(** C2, as the program has it. A command line with at least one argument,
    other than the single argument [--compare], that the parser accepts and
    that asks neither for interactive mode nor for exactly one of the four
    actions, ends the process with status 1, and between its start and its
    end no call into the collaborator is made. (The command line with no
    argument, and [--compare] alone, are taken before the arguments are
    parsed.) *)
Theorem wrong_action_count_exits_1
    {W} (c : Collab W) (prog : string) (tokens : list string)
    (args : gmap string pyval) (s : state W) :
  tokens <> [] -> tokens <> ["--compare"] ->
  parse_tokens tokens defaults = Parsed args ->
  flag args "interactive" = false ->
  actions_asked args <> 1 ->
  exists events,
    process_end (demo_py c (prog :: tokens) s).1 = Exited 1
    /\ trace (demo_py c (prog :: tokens) s).2 = trace s ++ events
    /\ forallb (fun e => negb (is_collaborator_call e)) events = true.
Proof.
  intros Hne Hcmp Hparse Hi _.
  pose proof (parse_tokens_ok _ _ _ Namespace_ok_defaults Hparse) as Hns.
  rewrite (demo_py_reaches_main c prog tokens s Hne Hcmp).
  unfold main, bind. rewrite (parse_args_parsed _ _ _ Hparse).
  destruct (flag args "db") eqn:Hdb.
  - rewrite (main_resolve_with_db c args _ Hns Hi Hdb). cbn [fst snd trace].
    eexists. split; [reflexivity |]. split.
    + rewrite <- app_assoc. reflexivity.
    + reflexivity.
  - rewrite (main_resolve_without_db c args _ Hns Hi Hdb). cbn [fst snd trace].
    eexists. split; [reflexivity |]. split.
    + rewrite <- app_assoc. reflexivity.
    + reflexivity.
Qed.

Lemma wrong_action_count_exits_1_witness :
  exists events,
    process_end (demo_py (sample_collab true true)
                   ["demo.py"; "--db"; "x.kdbx"; "--autotype"; "--search"; "site"]
                   (start [])).1 = Exited 1
    /\ trace (demo_py (sample_collab true true)
                ["demo.py"; "--db"; "x.kdbx"; "--autotype"; "--search"; "site"]
                (start [])).2 = [] ++ events
    /\ forallb (fun e => negb (is_collaborator_call e)) events = true.
Proof.
  refine (wrong_action_count_exits_1 (sample_collab true true) "demo.py"
            ["--db"; "x.kdbx"; "--autotype"; "--search"; "site"] _ (start [])
            _ _ eq_refl _ _).
  - discriminate.
  - discriminate.
  - vm_compute. reflexivity.
  - vm_compute. discriminate.
Defined.

(** C2 fails as it is stated: [python demo.py] with no argument at all is a
    run without [--interactive] and with none of the four action flags; the
    script asks whether to start interactive mode, and on the answer [y]
    opens the database, and it leaves with status 0 whatever the answer. *)
Lemma no_argument_exits_0 :
  parse_tokens (drop 1 ["demo.py"]) defaults = Parsed defaults
  /\ flag defaults "interactive" = false
  /\ actions_asked defaults = 0
  /\ process_end (demo_py (sample_collab true true) ["demo.py"]
                    (start [Line "n"])).1 = Exited 0
  /\ process_end (demo_py (sample_collab true true) ["demo.py"]
                    (start [Line "y"; Line "n"; Line "6"])).1 = Exited 0
  /\ existsb is_collaborator_call
       (trace (demo_py (sample_collab true true) ["demo.py"]
                 (start [Line "y"; Line "n"; Line "6"])).2) = true.
Proof. vm_compute. repeat split; reflexivity. Qed.

(** ** The comparison of the two input methods (C3, C8) *)

Section Comparison.
Context {W : Type} (c : Collab W).

Ltac run_pass :=
  unfold count_entries, with_session, open_session, exit_session, call, bind,
    print, emit, logging_log, raise, ret;
  cbn [trace stdin world next_session fst snd].

Lemma count_entries_events (db_path : string) (with_gui : bool) (s : state W) :
  exists events,
    trace (count_entries c db_path with_gui s).2 = trace s ++ events
    /\ Forall (pass_event db_path with_gui) events.
Proof.
  run_pass.
  destruct (kp_open c db_path with_gui (world s)) as [[[]|e] w1];
    cbn [trace stdin world next_session fst snd].
  - destruct (kp_get_entry_count c (next_session s) w1) as [[n|e] w2];
      cbn [trace stdin world next_session fst snd].
    + destruct (kp_exit c _ _ w2) as [[[]|e] w3];
        cbn [trace stdin world next_session fst snd];
        rewrite <- !app_assoc; cbn [app]; eexists; (split; [reflexivity |]);
        repeat constructor; exists n; reflexivity.
    + destruct (kp_exit c _ _ w2) as [[[]|e'] w3];
        cbn [trace stdin world next_session fst snd];
        rewrite <- !app_assoc; cbn [app]; eexists; (split; [reflexivity |]);
        repeat constructor.
  - eexists. split; [reflexivity |]. repeat constructor.
Qed.

(** With a collaborator whose [__exit__] swallows nothing, the [with] block
    of a pass never ends normally: when the database opens and the count
    is read, the call of [logging.log] with one argument raises. *)
Lemma count_entries_raises (db_path : string) (with_gui : bool) (s : state W) :
  (forall kp exc w, (kp_exit c kp exc w).1 <> Ret true) ->
  exists e, (count_entries c db_path with_gui s).1 = Raise e.
Proof.
  intros Hexit. run_pass.
  destruct (kp_open c db_path with_gui (world s)) as [[[]|e] w1];
    cbn [trace stdin world next_session fst snd]; [| eexists; reflexivity].
  destruct (kp_get_entry_count c (next_session s) w1) as [[n|e] w2];
    cbn [trace stdin world next_session fst snd].
  - pose proof (Hexit (next_session s)
      (Some (TypeError "log() missing 1 required positional argument: 'msg'")) w2) as H.
    destruct (kp_exit c _ _ w2) as [[[]|e] w3]; cbn in *;
      [congruence | eexists; reflexivity | eexists; reflexivity].
  - pose proof (Hexit (next_session s) (Some e) w2) as H.
    destruct (kp_exit c _ _ w2) as [[[]|e'] w3]; cbn in *;
      [congruence | eexists; reflexivity | eexists; reflexivity].
Qed.

End Comparison.

(** C3 fails on the program. With a database that opens both ways the first
    pass opens it and prints its number of entries; then
    [logging.log(f"..")], called with one argument where the library
    function needs two, raises [TypeError] inside the [with] block; the
    [except Exception] of the first pass reports it as a failure of console
    input and returns. The database is never opened with graphical input and
    one count is reported, not two. *)
Theorem compare_stops_after_console_pass :
  gui_comparison_demo (sample_collab true true) (start [Line "db.kdbx"])
  = (Ret tt,
     mkState
       [ Print (nl +:+ "🔄 GUI vs Console Input Comparison Demo");
         Print (str_mul "=" 50);
         Prompt "Enter path to KeePass database file for comparison: ";
         Print (nl +:+ "1️⃣  Testing with CONSOLE input:");
         Print "   You'll be prompted for password in the terminal";
         KpOpen "db.kdbx" false (Some 0);
         KpCall 0 GetEntryCount;
         Print "   ✓ Successfully opened database with > 3 < entries";
         KpExit 0;
         Print "   ❌ Console input failed: log() missing 1 required positional argument: 'msg'" ]
       [] tt 1).
Proof. vm_compute. reflexivity. Qed.



(** ** What the single-shot handlers print (C5, C9) *)

Lemma password_mask_nonempty (p : string) :
  p <> "" ->
  password_mask (Some p) = str_mul "*" (String.length p)
  /\ String.length (password_mask (Some p)) = String.length p.
Proof.
  intros Hp. unfold password_mask.
  rewrite (proj2 (nonempty_true p) Hp). split; [reflexivity | apply str_mul_length].
Qed.

Lemma password_mask_absent (pass : field) :
  pass = None \/ pass = Some "" -> password_mask pass = "N/A".
Proof. intros [-> | ->]; reflexivity. Qed.

Lemma str_take_length (k : nat) (s : string) :
  k <= String.length s -> String.length (str_take k s) = k.
Proof.
  unfold str_take. revert s. induction k as [|k IH]; intros s Hk.
  - destruct s; reflexivity.
  - destruct s as [|a s]; simpl in *; [lia |]. f_equal. apply IH. lia.
Qed.

Lemma str_take_prefix (k : nat) (s : string) :
  String.prefix (str_take k s) s = true.
Proof.
  unfold str_take. revert s. induction k as [|k IH]; intros s.
  - destruct s; reflexivity.
  - destruct s as [|a s]; simpl; [reflexivity |].
    destruct (ascii_dec a a); [apply IH | contradiction].
Qed.

Lemma notes_field_long (n : string) :
  100 < String.length n -> notes_field (Some n) = str_take 100 n +:+ "...".
Proof.
  intros Hn. unfold notes_field.
  rewrite nonempty_length.
  destruct (String.length n =? 0)%nat eqn:E0; [apply Nat.eqb_eq in E0; lia |].
  rewrite (proj2 (Nat.ltb_lt _ _) Hn). reflexivity.
Qed.

Lemma notes_field_short (n : string) :
  0 < String.length n <= 100 -> notes_field (Some n) = n.
Proof.
  intros [Hpos Hle]. unfold notes_field, fmt_or, field_truthy.
  rewrite nonempty_length.
  destruct (String.length n =? 0)%nat eqn:E0; [apply Nat.eqb_eq in E0; lia |].
  rewrite (proj2 (Nat.ltb_ge _ _) Hle). reflexivity.
Qed.

Lemma notes_field_absent (notes : field) :
  notes = None \/ notes = Some "" -> notes_field notes = "N/A".
Proof. intros [-> | ->]; reflexivity. Qed.

Section Scoped_handler.
Context {W : Type} (c : Collab W).

Lemma appends_print_2 (t1 t2 : string) :
  appends (except_ValueError_Exception
             (fun e => print (W := W) (t1 +:+ exn_str e))
             (fun e => print (t2 +:+ exn_str e))).
Proof.
  intros e k s. unfold except_ValueError_Exception.
  destruct (is_ValueError e); [| destruct (is_Exception e)];
    intros [= <-]; eexists; reflexivity.
Qed.

Lemma appends_print_1 (t : string) :
  appends (except_Exception (fun e => print (W := W) (t +:+ exn_str e))).
Proof.
  intros e k s. unfold except_Exception.
  destruct (is_Exception e); intros [= <-]; eexists; reflexivity.
Qed.

(** A [with] inside a [try], when the database opens and the block ends
    normally in [s2]: the session is left right after the block, and
    nothing follows unless [__exit__] itself raises. *)
Lemma handled_with_trace (h : exn -> option (M W unit)) (path : string)
    (with_gui : bool) (body : nat -> M W unit) (s s2 : state W) (w1 : W) :
  kp_open c path with_gui (world s) = (Ret tt, w1) ->
  body (next_session s) (opened_state path with_gui w1 s) = (Ret tt, s2) ->
  appends h ->
  exists after,
    trace (try_except (with_session c path with_gui body) h s).2
    = (trace s2 ++ [KpExit (next_session s)]) ++ after
    /\ (forall b w3, kp_exit c (next_session s) None (world s2) = (Ret b, w3) ->
        after = []).
Proof.
  intros Hopen Hbody Hh.
  unfold try_except, with_session, open_session, exit_session.
  rewrite Hopen. fold (opened_state path with_gui w1 s). rewrite Hbody.
  destruct (kp_exit c (next_session s) None (world s2)) as [[b|e] w3].
  - exists []. rewrite app_nil_r. split; reflexivity.
  - destruct (h e) as [k|] eqn:Ek.
    + destruct (Hh e k (mkState (trace s2 ++ [KpExit (next_session s)])
                          (stdin s2) w3 (next_session s2)) Ek) as (d & Hd).
      exists d. cbn [fst snd]. rewrite Hd.
      split; [reflexivity | intros; discriminate].
    + exists []. rewrite app_nil_r. split; [reflexivity | intros; discriminate].
Qed.

End Scoped_handler.

(** C5. Whenever [get_credentials_demo] gets a session and the lookup
    returns a user name and a password, what it does is exactly: announce
    the lookup, open, look up, print the user name, print the password
    line, leave the session. The password line is the prefix followed by a
    mask; for a password that is not empty the mask is one asterisk for
    each of its characters, so as long as the password; for an empty or
    absent password it is [N/A]. *)
Theorem get_credentials_masks_password
    {W} (c : Collab W) (db_path entry_title : string) (with_gui : bool)
    (s : state W) (w1 w2 : W) (user pass : field) :
  kp_open c db_path with_gui (world s) = (Ret tt, w1) ->
  kp_get_credentials c (next_session s) entry_title w1 = (Ret (user, pass), w2) ->
  exists (mask : string) (after : list event),
    trace (get_credentials_demo c db_path entry_title with_gui s).2
    = trace s
      ++ [ Print ("Getting credentials for entry: '" +:+ entry_title
                  +:+ "' (using " +:+ input_method with_gui +:+ " input)");
           KpOpen db_path with_gui (Some (next_session s));
           KpCall (next_session s) (GetCredentials entry_title);
           Print ("✓ Username: " +:+ fmt user);
           Print ("✓ Password: " +:+ mask);
           KpExit (next_session s) ]
      ++ after
    /\ (forall b w3, kp_exit c (next_session s) None w2 = (Ret b, w3) -> after = [])
    /\ (forall p, pass = Some p -> p <> "" ->
          mask = str_mul "*" (String.length p)
          /\ String.length mask = String.length p)
    /\ (pass = None \/ pass = Some "" -> mask = "N/A").
Proof.
  intros Hopen Hget. exists (password_mask pass).
  cut (exists after,
         trace (get_credentials_demo c db_path entry_title with_gui s).2
         = (trace s
            ++ [ Print ("Getting credentials for entry: '" +:+ entry_title
                        +:+ "' (using " +:+ input_method with_gui +:+ " input)");
                 KpOpen db_path with_gui (Some (next_session s));
                 KpCall (next_session s) (GetCredentials entry_title);
                 Print ("✓ Username: " +:+ fmt user);
                 Print ("✓ Password: " +:+ password_mask pass);
                 KpExit (next_session s) ])
           ++ after
         /\ (forall b w3, kp_exit c (next_session s) None w2 = (Ret b, w3) ->
             after = [])).
  { intros (after & Htr & Hafter). exists after.
    rewrite <- app_assoc in Htr. split; [exact Htr |]. split; [exact Hafter |].
    split.
    - intros p -> Hp. apply password_mask_nonempty, Hp.
    - apply password_mask_absent. }
  unfold get_credentials_demo, bind at 1, print at 1, emit.
  match goal with
  | |- context [try_except (with_session _ _ _ ?body) ?h ?s0] =>
      destruct (handled_with_trace c h db_path with_gui body s0
                  (mkState (trace s0
                            ++ [KpOpen db_path with_gui (Some (next_session s));
                                KpCall (next_session s) (GetCredentials entry_title);
                                Print ("✓ Username: " +:+ fmt user);
                                Print ("✓ Password: " +:+ password_mask pass)])
                           (stdin s) w2 (S (next_session s)))
                  w1 Hopen)
        as (after & Htr & Hafter)
  end.
  - unfold call, bind, print, emit, opened_state.
    cbn [trace stdin world next_session]. rewrite Hget.
    cbn [trace stdin world next_session fst snd]. rewrite <- !app_assoc.
    reflexivity.
  - apply appends_print_2.
  - exists after. cbn [trace stdin world next_session] in *.
    rewrite Htr, <- !app_assoc. split; [reflexivity | exact Hafter].
Qed.

Lemma get_credentials_masks_password_witness :
  exists (mask : string) (after : list event),
    trace (get_credentials_demo (sample_collab true true) "x.kdbx" "Site" false
             (start [])).2
    = [ Print "Getting credentials for entry: 'Site' (using console input)";
        KpOpen "x.kdbx" false (Some 0);
        KpCall 0 (GetCredentials "Site");
        Print "✓ Username: alice";
        Print ("✓ Password: " +:+ mask);
        KpExit 0 ]
      ++ after
    /\ (forall b w3, (Ret false, tt) = (Ret b, w3) -> after = [])
    /\ (forall p, Some "p4ss" = Some p -> p <> "" ->
          mask = str_mul "*" (String.length p)
          /\ String.length mask = String.length p)
    /\ (Some "p4ss" = None \/ Some "p4ss" = Some "" -> mask = "N/A").
Proof.
  exact (get_credentials_masks_password (sample_collab true true) "x.kdbx" "Site"
           false (start []) tt tt (Some "alice") (Some "p4ss") eq_refl eq_refl).
Defined.

(** C9, as the program has it. Whenever [get_full_entry_demo] gets a session
    and the lookup returns an entry, it prints the details of the entry
    between the lookup and the release of the session, and the notes field
    among them is: the first 100 characters of the notes followed by three
    dots when the notes are longer than 100 characters; the notes unchanged
    when they have between 1 and 100 characters; [N/A] when they are empty
    or absent. *)
Theorem full_entry_notes
    {W} (c : Collab W) (db_path entry_title : string) (with_gui : bool)
    (s : state W) (w1 w2 : W) (entry : Entry) :
  kp_open c db_path with_gui (world s) = (Ret tt, w1) ->
  kp_get_entry c (next_session s) entry_title w1 = (Ret entry, w2) ->
  exists (shown : string) (after : list event),
    trace (get_full_entry_demo c db_path entry_title with_gui s).2
    = trace s
      ++ [ Print ("Getting full entry details for: '" +:+ entry_title
                  +:+ "' (using " +:+ input_method with_gui +:+ " input)");
           KpOpen db_path with_gui (Some (next_session s));
           KpCall (next_session s) (GetEntry entry_title) ]
      ++ entry_details entry shown
      ++ [ KpExit (next_session s) ]
      ++ after
    /\ (forall b w3, kp_exit c (next_session s) None w2 = (Ret b, w3) -> after = [])
    /\ (forall n, notes entry = Some n -> 100 < String.length n ->
          shown = str_take 100 n +:+ "..."
          /\ String.length (str_take 100 n) = 100
          /\ String.prefix (str_take 100 n) n = true)
    /\ (forall n, notes entry = Some n -> 0 < String.length n <= 100 ->
          shown = n)
    /\ (notes entry = None \/ notes entry = Some "" -> shown = "N/A").
Proof.
  intros Hopen Hget. exists (notes_field (notes entry)).
  cut (exists after,
         trace (get_full_entry_demo c db_path entry_title with_gui s).2
         = (trace s
            ++ [ Print ("Getting full entry details for: '" +:+ entry_title
                        +:+ "' (using " +:+ input_method with_gui +:+ " input)");
                 KpOpen db_path with_gui (Some (next_session s));
                 KpCall (next_session s) (GetEntry entry_title) ]
            ++ entry_details entry (notes_field (notes entry))
            ++ [ KpExit (next_session s) ])
           ++ after
         /\ (forall b w3, kp_exit c (next_session s) None w2 = (Ret b, w3) ->
             after = [])).
  { intros (after & Htr & Hafter). exists after.
    rewrite <- !app_assoc in Htr. split; [exact Htr |]. split; [exact Hafter |].
    split; [| split].
    - intros n -> Hn. split; [apply notes_field_long, Hn |].
      split; [apply str_take_length; lia | apply str_take_prefix].
    - intros n -> Hn. apply notes_field_short, Hn.
    - apply notes_field_absent. }
  unfold get_full_entry_demo, bind at 1, print at 1, emit.
  match goal with
  | |- context [try_except (with_session _ _ _ ?body) ?h ?s0] =>
      destruct (handled_with_trace c h db_path with_gui body s0
                  (mkState (trace s0
                            ++ [KpOpen db_path with_gui (Some (next_session s));
                                KpCall (next_session s) (GetEntry entry_title)]
                            ++ entry_details entry (notes_field (notes entry)))
                           (stdin s) w2 (S (next_session s)))
                  w1 Hopen)
        as (after & Htr & Hafter)
  end.
  - unfold call, bind, print, emit, opened_state, entry_details.
    cbn [trace stdin world next_session]. rewrite Hget.
    cbn [trace stdin world next_session fst snd].
    destruct (field_truthy (autotype_sequence entry));
      cbn [trace stdin world next_session fst snd]; unfold ret;
      rewrite <- !app_assoc; reflexivity.
  - apply appends_print_2.
  - exists after. cbn [trace stdin world next_session] in *.
    rewrite Htr, <- !app_assoc. split; [reflexivity | exact Hafter].
Qed.

Lemma full_entry_notes_witness :
  exists (shown : string) (after : list event),
    trace (get_full_entry_demo (sample_collab true true) "x.kdbx" "Mail" true
             (start [])).2
    = [ Print "Getting full entry details for: 'Mail' (using GUI input)";
        KpOpen "x.kdbx" true (Some 0);
        KpCall 0 (GetEntry "Mail") ]
      ++ entry_details
           (mkEntry (Some "Mail") (Some "site-admin") (Some "") None
              (Some (str_mul "n" 150)) (Some "{USERNAME}{TAB}{PASSWORD}{ENTER}") 2)
           shown
      ++ [ KpExit 0 ]
      ++ after
    /\ after = []
    /\ shown = str_mul "n" 100 +:+ "...".
Proof.
  destruct (full_entry_notes (sample_collab true true) "x.kdbx" "Mail" true
              (start []) tt tt
              (mkEntry (Some "Mail") (Some "site-admin") (Some "") None
                 (Some (str_mul "n" 150)) (Some "{USERNAME}{TAB}{PASSWORD}{ENTER}") 2)
              eq_refl eq_refl) as (shown & after & Htrace & Hafter & Hlong & _).
  exists shown, after. split; [exact Htrace |].
  split; [exact (Hafter false tt eq_refl) |].
  exact (proj1 (Hlong (str_mul "n" 150) eq_refl ltac:(vm_compute; lia))).
Defined.

(** C9 fails as it is stated: notes that are the empty string have length
    0, at most 100, and are not printed unchanged: the notes field of the
    entry is [N/A]. *)
Lemma empty_notes_print_NA :
  sample_lookup "Bank"
  = Some (mkEntry (Some "Bank") None None (Some "https://bank.example") (Some "") None 3)
  /\ String.length "" <= 100
  /\ notes_field (Some "") <> ""
  /\ trace (get_full_entry_demo (sample_collab true true) "x.kdbx" "Bank" false
              (start [])).2
     = [ Print "Getting full entry details for: 'Bank' (using console input)";
         KpOpen "x.kdbx" false (Some 0);
         KpCall 0 (GetEntry "Bank");
         Print (nl +:+ "📋 Entry Details:");
         Print "   Title: Bank";
         Print "   Username: N/A";
         Print "   Password: N/A";
         Print "   URL: https://bank.example";
         Print "   Notes: N/A";
         Print "   Has Autotype: No";
         KpExit 0 ].
Proof.
  split; [reflexivity |]. split; [simpl; lia |]. split; [discriminate |].
  vm_compute. reflexivity.
Qed.

(** ** The search and its duplicates (C7) *)

Lemma filter_all {A} (P : A -> Prop) `{!forall x, Decision (P x)} (l : list A) :
  (forall x, P x) -> filter P l = l.
Proof.
  intros HP. induction l as [|x l IH]; [reflexivity |].
  rewrite filter_cons_True by apply HP. f_equal. exact IH.
Qed.

Lemma filter_none {A} (P : A -> Prop) `{!forall x, Decision (P x)} (l : list A) :
  (forall x, x ∈ l -> ~ P x) -> filter P l = [].
Proof.
  intros HP. induction l as [|x l IH]; [reflexivity |].
  rewrite filter_cons_False by (apply HP; left).
  apply IH. intros y Hy. apply HP. right. exact Hy.
Qed.

Lemma dict_set_keys {V} (k : N) (v : V) (d : list (N * V)) :
  (dict_set k v d).*1 = if decide (k ∈ d.*1) then d.*1 else d.*1 ++ [k].
Proof.
  induction d as [|[k' v'] d IH]; cbn [dict_set].
  - rewrite decide_False; [reflexivity | apply not_elem_of_nil].
  - rewrite fmap_cons. cbn [fst].
    destruct (N.eqb_spec k k') as [-> | Hne]; rewrite fmap_cons; cbn [fst].
    + rewrite decide_True; [reflexivity | left].
    + rewrite IH. destruct (decide (k ∈ d.*1)) as [Hin | Hin].
      * rewrite decide_True; [reflexivity | right; exact Hin].
      * rewrite decide_False; [reflexivity |].
        intros H. apply elem_of_cons in H as [H | H]; [congruence | contradiction].
Qed.

Lemma dict_by_uuid_keys_from (entries : list Entry) (d : list (N * Entry)) :
  (fold_left (fun d entry => dict_set (uuid entry) entry d) entries d).*1
  = d.*1 ++ filter (fun k => k ∉ d.*1) (first_seen (uuid <$> entries)).
Proof.
  revert d. induction entries as [|e entries IH]; intros d; simpl.
  - rewrite filter_nil, app_nil_r. reflexivity.
  - rewrite IH, dict_set_keys. rewrite filter_cons.
    destruct (decide (uuid e ∈ d.*1)) as [Hin | Hin].
    + rewrite decide_False by (intros H; apply H, Hin).
      f_equal. rewrite list_filter_filter. apply list_filter_iff.
      intros k. split; [intros Hk; split; [exact Hk | congruence] | tauto].
    + rewrite decide_True by exact Hin.
      rewrite <- app_assoc. simpl. do 2 f_equal.
      rewrite list_filter_filter. apply list_filter_iff.
      intros k. rewrite elem_of_app, list_elem_of_singleton. tauto.
Qed.

Lemma dict_set_keyed (e : Entry) (d : list (N * Entry)) :
  Forall (fun kv => uuid kv.2 = kv.1) d ->
  Forall (fun kv => uuid kv.2 = kv.1) (dict_set (uuid e) e d).
Proof.
  induction 1 as [|[k' v'] d Hkv Hd IH]; simpl.
  - repeat constructor.
  - destruct (N.eqb (uuid e) k'); constructor; auto.
Qed.

Lemma dict_by_uuid_keyed_from (entries : list Entry) (d : list (N * Entry)) :
  Forall (fun kv => uuid kv.2 = kv.1) d ->
  Forall (fun kv => uuid kv.2 = kv.1)
    (fold_left (fun d entry => dict_set (uuid entry) entry d) entries d).
Proof.
  revert d. induction entries as [|e entries IH]; intros d Hd; simpl.
  - exact Hd.
  - apply IH, dict_set_keyed, Hd.
Qed.

(** The identity keys of the entries that are printed: those of the search
    result, each once, in the order in which they are first seen. *)
Lemma unique_by_uuid_keys (entries : list Entry) :
  uuid <$> unique_by_uuid entries = first_seen (uuid <$> entries).
Proof.
  unfold unique_by_uuid, dict_by_uuid.
  pose proof (dict_by_uuid_keyed_from entries [] (List.Forall_nil _)) as Hkeyed.
  pose proof (dict_by_uuid_keys_from entries []) as Hkeys.
  simpl in Hkeys. rewrite filter_all in Hkeys
    by (intros; apply not_elem_of_nil).
  rewrite <- Hkeys. clear Hkeys.
  induction Hkeyed as [|[k v] d Hkv Hd IH]; simpl; [reflexivity |].
  simpl in Hkv. rewrite Hkv. f_equal. exact IH.
Qed.

Lemma first_seen_elem_of (k : N) (keys : list N) :
  k ∈ first_seen keys <-> k ∈ keys.
Proof.
  induction keys as [|k' keys IH]; simpl; [reflexivity |].
  rewrite !elem_of_cons, list_elem_of_filter, IH.
  destruct (decide (k = k')); tauto.
Qed.

Lemma first_seen_NoDup (keys : list N) : NoDup (first_seen keys).
Proof.
  induction keys as [|k keys IH]; simpl; constructor.
  - rewrite list_elem_of_filter. tauto.
  - apply NoDup_filter, IH.
Qed.

Lemma once_in_NoDup (k : N) (l : list Entry) :
  NoDup (uuid <$> l) -> k ∈ uuid <$> l ->
  length (filter (fun x => uuid x = k) l) = 1.
Proof.
  induction l as [|e l IH]; simpl; intros Hnd Hin.
  - apply elem_of_nil in Hin. contradiction.
  - apply NoDup_cons in Hnd as [Hne Hnd]. rewrite filter_cons.
    destruct (decide (uuid e = k)) as [<- | Hk].
    + simpl. f_equal. apply length_zero_iff_nil.
      apply filter_none. intros x Hx Hux.
      apply Hne. rewrite <- Hux. apply list_elem_of_fmap. eauto.
    + apply IH; [exact Hnd |].
      apply elem_of_cons in Hin as [Hin | Hin]; [congruence | exact Hin].
Qed.


Lemma dict_set_NoDup (k : N) (v : Entry) (d : list (N * Entry)) :
  NoDup d.*1 -> NoDup (dict_set k v d).*1.
Proof.
  intros Hd. rewrite dict_set_keys.
  destruct (decide (k ∈ d.*1)) as [Hin | Hin]; [exact Hd |].
  apply NoDup_app. split; [exact Hd |]. split.
  - intros x Hx Hk. apply list_elem_of_singleton in Hk as ->. contradiction.
  - apply NoDup_singleton.
Qed.

Lemma elem_of_dict_set (k k0 : N) (v v0 : Entry) (d : list (N * Entry)) :
  NoDup d.*1 -> (k, v) ∈ dict_set k0 v0 d ->
  (k, v) = (k0, v0) \/ ((k, v) ∈ d /\ k <> k0).
Proof.
  induction d as [|[k' v'] d IH]; cbn [dict_set]; intros Hnd Hin.
  - apply list_elem_of_singleton in Hin. left. exact Hin.
  - rewrite fmap_cons in Hnd. cbn [fst] in Hnd.
    apply NoDup_cons in Hnd as [Hk' Hnd].
    destruct (N.eqb_spec k0 k') as [<- | Hne].
    + apply elem_of_cons in Hin as [Hin | Hin]; [left; exact Hin |].
      right. split; [right; exact Hin |].
      intros ->. apply Hk'. apply list_elem_of_fmap. exists (k0, v). auto.
    + apply elem_of_cons in Hin as [Hin | Hin].
      * right. split; [rewrite Hin; left | congruence].
      * destruct (IH Hnd Hin) as [H | [H1 H2]]; [left; exact H |].
        right. split; [right; exact H1 | exact H2].
Qed.

Lemma dict_by_uuid_last_from (entries : list Entry) (d : list (N * Entry))
    (k : N) (v : Entry) :
  NoDup d.*1 ->
  (k, v) ∈ fold_left (fun d entry => dict_set (uuid entry) entry d) entries d ->
  last (filter (fun x => uuid x = k) entries) = Some v
  \/ (filter (fun x => uuid x = k) entries = [] /\ (k, v) ∈ d).
Proof.
  revert d. induction entries as [|e entries IH]; intros d Hnd Hin; simpl in Hin.
  - right. split; [reflexivity | exact Hin].
  - rewrite filter_cons.
    destruct (IH _ (dict_set_NoDup (uuid e) e d Hnd) Hin) as [Hlast | [Hnone Hd]].
    + left. destruct (decide (uuid e = k)); [| exact Hlast].
      rewrite last_cons, Hlast. reflexivity.
    + rewrite Hnone.
      destruct (elem_of_dict_set _ _ _ _ _ Hnd Hd) as [[= -> ->] | [Hd' Hne]].
      * left. rewrite decide_True by reflexivity. reflexivity.
      * rewrite decide_False by congruence. right. split; [reflexivity | exact Hd'].
Qed.

(** Of the entries that share an identity key, the one that is printed is
    the last of them in the search result. *)
Lemma unique_by_uuid_last (entries : list Entry) (e : Entry) :
  e ∈ unique_by_uuid entries ->
  last (filter (fun x => uuid x = uuid e) entries) = Some e.
Proof.
  unfold unique_by_uuid, dict_by_uuid. intros He.
  apply list_elem_of_fmap in He as ([k v] & -> & Hkv). cbn [snd].
  pose proof (dict_by_uuid_keyed_from entries [] (List.Forall_nil _)) as Hkeyed.
  rewrite Forall_forall in Hkeyed. pose proof (Hkeyed _ Hkv) as Huuid.
  cbn [fst snd] in Huuid. rewrite Huuid.
  destruct (dict_by_uuid_last_from entries [] k v (NoDup_nil_2) Hkv)
    as [H | [_ H]]; [exact H |].
  apply elem_of_nil in H. contradiction.
Qed.

Section Search.
Context {W : Type} (c : Collab W).

Lemma print_match_trace (i : nat) (entry : Entry) (s : state W) :
  print_match i entry s
  = (Ret tt, mkState (trace s ++ match_lines i entry)
                     (stdin s) (world s) (next_session s)).
Proof.
  unfold print_match, match_lines, bind, print, emit, ret.
  destruct (field_truthy (username entry)), (field_truthy (url entry));
    cbn [trace stdin world next_session app];
    rewrite <- ?app_assoc; reflexivity.
Qed.

Lemma print_matches_trace (entries : list Entry) (i : nat) (s : state W) :
  print_matches i entries s
  = (Ret tt,
     mkState (trace s ++ concat (imap (fun j entry => match_lines (i + j) entry) entries))
             (stdin s) (world s) (next_session s)).
Proof.
  revert i s. induction entries as [|e entries IH]; intros i s;
    cbn [print_matches imap concat].
  - unfold ret. rewrite app_nil_r. destruct s; reflexivity.
  - unfold bind. rewrite print_match_trace, IH.
    cbn [trace stdin world next_session]. rewrite <- app_assoc, Nat.add_0_r.
    do 3 f_equal. f_equal. f_equal. apply imap_ext. intros j x _. unfold compose.
    f_equal. lia.
Qed.

End Search.

(** C7. Whenever [search_entries_demo] gets a session and the search
    returns a list of entries, what it does is exactly: announce the
    search, open, call the collaborator's search once with the term as
    title and a cap of 10 results, print the report of the entries kept,
    leave the session. The entries kept are those of the result with
    duplicates by identity key removed: their keys are the keys of the
    result in the order in which they are first seen, no key twice, so for
    every entry of the result exactly one entry with its key is kept and
    printed, and each entry kept is an entry of the result (the last one
    with its key). The report numbers them from 1 in that order. *)
Theorem search_deduplicates
    {W} (c : Collab W) (db_path search_term : string) (with_gui : bool)
    (s : state W) (w1 w2 : W) (entries : list Entry) :
  kp_open c db_path with_gui (world s) = (Ret tt, w1) ->
  kp_search_entries c (next_session s) search_term 10 w1 = (Ret entries, w2) ->
  exists after : list event,
    trace (search_entries_demo c db_path search_term with_gui s).2
    = trace s
      ++ [ Print ("🔍 Searching for entries containing '" +:+ search_term
                  +:+ "' (using " +:+ input_method with_gui +:+ " input):");
           KpOpen db_path with_gui (Some (next_session s));
           KpCall (next_session s) (SearchEntries search_term 10) ]
      ++ search_report search_term (unique_by_uuid entries)
      ++ [ KpExit (next_session s) ]
      ++ after
    /\ (forall b w3, kp_exit c (next_session s) None w2 = (Ret b, w3) -> after = [])
    /\ uuid <$> unique_by_uuid entries = first_seen (uuid <$> entries)
    /\ NoDup (uuid <$> unique_by_uuid entries)
    /\ (forall e, e ∈ entries ->
          length (filter (fun x => uuid x = uuid e) (unique_by_uuid entries)) = 1)
    /\ (forall e, e ∈ unique_by_uuid entries ->
          last (filter (fun x => uuid x = uuid e) entries) = Some e).
Proof.
  intros Hopen Hsearch.
  cut (exists after,
         trace (search_entries_demo c db_path search_term with_gui s).2
         = (trace s
            ++ [ Print ("🔍 Searching for entries containing '" +:+ search_term
                        +:+ "' (using " +:+ input_method with_gui +:+ " input):");
                 KpOpen db_path with_gui (Some (next_session s));
                 KpCall (next_session s) (SearchEntries search_term 10) ]
            ++ search_report search_term (unique_by_uuid entries)
            ++ [ KpExit (next_session s) ])
           ++ after
         /\ (forall b w3, kp_exit c (next_session s) None w2 = (Ret b, w3) ->
             after = [])).
  { intros (after & Htr & Hafter). exists after.
    rewrite <- !app_assoc in Htr. split; [exact Htr |]. split; [exact Hafter |].
    split; [apply unique_by_uuid_keys |]. split; [| split].
    - rewrite unique_by_uuid_keys. apply first_seen_NoDup.
    - intros e He. apply once_in_NoDup.
      + rewrite unique_by_uuid_keys. apply first_seen_NoDup.
      + rewrite unique_by_uuid_keys. apply first_seen_elem_of.
        apply list_elem_of_fmap. eauto.
    - apply unique_by_uuid_last. }
  unfold search_entries_demo, bind at 1, print at 1, emit.
  match goal with
  | |- context [try_except (with_session _ _ _ ?body) ?h ?s0] =>
      destruct (handled_with_trace c h db_path with_gui body s0
                  (mkState (trace s0
                            ++ [KpOpen db_path with_gui (Some (next_session s));
                                KpCall (next_session s) (SearchEntries search_term 10)]
                            ++ search_report search_term (unique_by_uuid entries))
                           (stdin s) w2 (S (next_session s)))
                  w1 Hopen)
        as (after & Htr & Hafter)
  end.
  - unfold call, bind at 1, opened_state, search_report.
    cbn [trace stdin world next_session]. rewrite Hsearch.
    cbn [trace stdin world next_session fst snd].
    destruct (unique_by_uuid entries) as [|e0 kept].
    + unfold print, emit. cbn [trace stdin world next_session].
      rewrite <- !app_assoc. reflexivity.
    + unfold bind, print, emit. cbn [trace stdin world next_session].
      rewrite print_matches_trace. cbn [trace stdin world next_session].
      rewrite <- !app_assoc. reflexivity.
  - apply appends_print_1.
  - exists after. cbn [trace stdin world next_session] in *.
    rewrite Htr, <- !app_assoc. split; [reflexivity | exact Hafter].
Qed.

Lemma search_deduplicates_witness :
  sample_search "i" 10
  = [ mkEntry (Some "Site") (Some "alice") (Some "p4ss")
        (Some "https://site.example") (Some "first note") None 1;
      mkEntry (Some "Mail") (Some "site-admin") (Some "")
        None (Some (str_mul "n" 150)) (Some "{USERNAME}{TAB}{PASSWORD}{ENTER}") 2;
      mkEntry (Some "Site") (Some "alice") (Some "p4ss")
        (Some "https://site.example") (Some "first note") None 1;
      mkEntry (Some "Mail") (Some "site-admin") (Some "")
        None (Some (str_mul "n" 150)) (Some "{USERNAME}{TAB}{PASSWORD}{ENTER}") 2;
      mkEntry (Some "Site") (Some "alice") (Some "p4ss")
        (Some "https://site.example") (Some "first note") None 1 ]
  /\ uuid <$> unique_by_uuid (sample_search "i" 10) = [1%N; 2%N]
  /\ exists after : list event,
       trace (search_entries_demo (sample_collab true true) "x.kdbx" "i" false
                (start [])).2
       = [ Print "🔍 Searching for entries containing 'i' (using console input):";
           KpOpen "x.kdbx" false (Some 0);
           KpCall 0 (SearchEntries "i" 10);
           Print (nl +:+ "✓ Found 2 matching entries:");
           Print (str_mul "-" 60);
           Print "1. 📝 Site";
           Print "   👤 Username: alice";
           Print "   🌐 URL: https://site.example";
           Print "";
           Print "2. 📝 Mail";
           Print "   👤 Username: site-admin";
           Print "";
           KpExit 0 ]
         ++ after
       /\ after = [].
Proof.
  destruct (search_deduplicates (sample_collab true true) "x.kdbx" "i" false
              (start []) tt tt (sample_search "i" 10) eq_refl eq_refl)
    as (after & Htrace & Hafter & Hkeys & _).
  split; [vm_compute; reflexivity |]. split; [exact Hkeys |].
  exists after. split; [exact Htrace | exact (Hafter false tt eq_refl)].
Defined.

(** ** A logic of runs

    The rules for the combinators hold of every relation that is reflexive
    and transitive; the four hypotheses on the primitives are what a
    relation has to satisfy for every handler to respect it. *)

Section Logic.
Context {W : Type} (c : Collab W) (R : state W -> state W -> Prop).
Hypothesis R_refl : forall s, R s s.
Hypothesis R_trans : forall s1 s2 s3, R s1 s2 -> R s2 s3 -> R s1 s3.
Hypothesis R_emit :
  forall e, is_collaborator_call e = false -> respects R (emit e).
Hypothesis R_input : forall text, respects R (input text).
Hypothesis R_call :
  forall A kp what (op : W -> result A * W), respects R (call kp what op).
Hypothesis R_with :
  forall path with_gui body,
    (forall kp, respects R (body kp)) ->
    respects R (with_session c path with_gui body).

Lemma respects_ret {A} (a : A) : respects R (ret a).
Proof. intros s. apply R_refl. Qed.

Lemma respects_raise {A} (e : exn) : respects R (raise (A := A) e).
Proof. intros s. apply R_refl. Qed.

Lemma respects_bind {A B} (m : M W A) (k : A -> M W B) :
  respects R m -> (forall a, respects R (k a)) -> respects R (bind m k).
Proof.
  intros Hm Hk s. unfold bind. specialize (Hm s).
  destruct (m s) as [[a|e] s1]; cbn [snd] in *.
  - eapply R_trans; [exact Hm | apply Hk].
  - exact Hm.
Qed.

Lemma respects_try {A} (m : M W A) (h : exn -> option (M W A)) :
  respects R m -> (forall e k, h e = Some k -> respects R k) ->
  respects R (try_except m h).
Proof.
  intros Hm Hh s. unfold try_except. specialize (Hm s).
  destruct (m s) as [[a|e] s1]; cbn [snd] in *; [exact Hm |].
  destruct (h e) as [k|] eqn:Ek; [| exact Hm].
  eapply R_trans; [exact Hm | apply (Hh e k Ek)].
Qed.

Lemma respects_try_Exception {A} (m : M W A) (h : exn -> M W A) :
  respects R m -> (forall e, respects R (h e)) ->
  respects R (try_except m (except_Exception h)).
Proof.
  intros Hm Hh. apply respects_try; [exact Hm |].
  intros e k. unfold except_Exception.
  destruct (is_Exception e); intros [= <-]. apply Hh.
Qed.

Lemma respects_try_ValueError {A} (m : M W A) (h : exn -> M W A) :
  respects R m -> (forall e, respects R (h e)) ->
  respects R (try_except m (except_ValueError h)).
Proof.
  intros Hm Hh. apply respects_try; [exact Hm |].
  intros e k. unfold except_ValueError.
  destruct (is_ValueError e); intros [= <-]. apply Hh.
Qed.

Lemma respects_try_ValueError_Exception {A} (m : M W A) (hv he : exn -> M W A) :
  respects R m -> (forall e, respects R (hv e)) -> (forall e, respects R (he e)) ->
  respects R (try_except m (except_ValueError_Exception hv he)).
Proof.
  intros Hm Hv He. apply respects_try; [exact Hm |].
  intros e k. unfold except_ValueError_Exception.
  destruct (is_ValueError e); [intros [= <-]; apply Hv |].
  destruct (is_Exception e); intros [= <-]. apply He.
Qed.

Lemma respects_try_KeyboardInterrupt_Exception {A} (m : M W A) (hk : M W A)
    (he : exn -> M W A) :
  respects R m -> respects R hk -> (forall e, respects R (he e)) ->
  respects R (try_except m (except_KeyboardInterrupt_Exception hk he)).
Proof.
  intros Hm Hk He. apply respects_try; [exact Hm |].
  intros e k. unfold except_KeyboardInterrupt_Exception.
  destruct e; cbn [is_Exception]; intros [= <-]; try apply He; apply Hk.
Qed.

Lemma respects_print (text : string) : respects R (print text).
Proof. apply R_emit. reflexivity. Qed.

Lemma respects_print_cr (text : string) : respects R (print_cr text).
Proof. apply R_emit. reflexivity. Qed.

Lemma respects_time_sleep (n : nat) : respects R (time_sleep n).
Proof. apply R_emit. reflexivity. Qed.

Lemma respects_setup_logging (verbose : bool) : respects R (setup_logging verbose).
Proof. apply R_emit. reflexivity. Qed.

Lemma respects_sys_exit {A} (code : Z) : respects R (sys_exit (A := A) code).
Proof. apply respects_raise. Qed.

Lemma respects_logging_log (positional : list string) :
  respects R (logging_log positional).
Proof.
  destruct positional as [|x [|y l]]; [apply respects_raise .. | apply respects_ret].
Qed.

Lemma respects_getattr (args : gmap string pyval) (name : string) :
  respects R (getattr args name).
Proof.
  unfold getattr. destruct (args !! name); [apply respects_ret | apply respects_raise].
Qed.

Lemma respects_passes_needed : respects R passes_needed.
Proof. intros s. apply R_refl. Qed.

Ltac respects_step :=
  lazymatch goal with
  | |- respects _ (bind _ _) => apply respects_bind; [| intros ?]
  | |- respects _ (ret _) => apply respects_ret
  | |- respects _ (raise _) => apply respects_raise
  | |- respects _ (sys_exit _) => apply respects_sys_exit
  | |- respects _ (print _) => apply respects_print
  | |- respects _ (print_cr _) => apply respects_print_cr
  | |- respects _ (time_sleep _) => apply respects_time_sleep
  | |- respects _ (setup_logging _) => apply respects_setup_logging
  | |- respects _ (logging_log _) => apply respects_logging_log
  | |- respects _ (getattr _ _) => apply respects_getattr
  | |- respects _ passes_needed => apply respects_passes_needed
  | |- respects _ (input _) => apply R_input
  | |- respects _ (call _ _ _) => apply R_call
  | |- respects _ (with_session _ _ _ _) => apply R_with; intros ?
  | |- respects _ (try_except _ (except_Exception _)) =>
      apply respects_try_Exception; [| intros ?]
  | |- respects _ (try_except _ (except_ValueError _)) =>
      apply respects_try_ValueError; [| intros ?]
  | |- respects _ (try_except _ (except_ValueError_Exception _ _)) =>
      apply respects_try_ValueError_Exception; [| intros ? | intros ?]
  | |- respects _ (try_except _ (except_KeyboardInterrupt_Exception _ _)) =>
      apply respects_try_KeyboardInterrupt_Exception; [| | intros ?]
  | |- respects _ (if ?b then _ else _) => destruct b
  | |- respects _ (match ?x with _ => _ end) => destruct x
  | |- respects _ (let _ := _ in _) => cbv zeta
  end.

Ltac respects_all := repeat respects_step.

Lemma respects_countdown (n : nat) : respects R (countdown n).
Proof. induction n as [|n IH]; cbn [countdown]; respects_all. exact IH. Qed.

Lemma respects_print_matches (entries : list Entry) (i : nat) :
  respects R (print_matches i entries).
Proof.
  revert i. induction entries as [|e entries IH]; intros i; cbn [print_matches];
    [respects_all |].
  apply respects_bind; [unfold print_match; respects_all | intros _; apply IH].
Qed.

Lemma respects_py_sum (l : list pyval) : respects R (py_sum l).
Proof.
  induction l as [|[| b | x] l IH]; cbn [py_sum]; respects_all. exact IH.
Qed.

Lemma respects_get_full_entry_demo (db_path entry_title : string) (with_gui : bool) :
  respects R (get_full_entry_demo c db_path entry_title with_gui).
Proof. unfold get_full_entry_demo. respects_all. Qed.

Lemma respects_get_credentials_demo (db_path entry_title : string) (with_gui : bool) :
  respects R (get_credentials_demo c db_path entry_title with_gui).
Proof. unfold get_credentials_demo. respects_all. Qed.

Lemma respects_autotype_demo (db_path entry_title : string) (with_gui : bool) :
  respects R (autotype_demo c db_path entry_title with_gui).
Proof.
  unfold autotype_demo. apply respects_bind; [respects_all | intros _].
  apply respects_bind; [respects_all | intros _].
  apply respects_bind; [apply respects_countdown | intros _]. respects_all.
Qed.

Lemma respects_search_entries_demo (db_path search_term : string) (with_gui : bool) :
  respects R (search_entries_demo c db_path search_term with_gui).
Proof.
  unfold search_entries_demo. respects_all.
  match goal with |- respects _ (print_matches _ ?l) => apply respects_print_matches end.
Qed.

Lemma respects_count_entries (db_path : string) (with_gui : bool) :
  respects R (count_entries c db_path with_gui).
Proof. unfold count_entries. respects_all. Qed.

Ltac respects_handlers :=
  repeat
    lazymatch goal with
    | |- respects _ (count_entries _ _ _) => apply respects_count_entries
    | |- respects _ (get_full_entry_demo _ _ _ _) => apply respects_get_full_entry_demo
    | |- respects _ (get_credentials_demo _ _ _ _) => apply respects_get_credentials_demo
    | |- respects _ (autotype_demo _ _ _ _) => apply respects_autotype_demo
    | |- respects _ (search_entries_demo _ _ _ _) => apply respects_search_entries_demo
    | |- respects _ (py_sum _) => apply respects_py_sum
    | |- _ => respects_step
    end.

Lemma respects_gui_comparison_demo : respects R (gui_comparison_demo c).
Proof. unfold gui_comparison_demo, console_pass, gui_pass. respects_handlers. Qed.

Lemma respects_interactive_action (kp : nat) (choice : string) :
  respects R (interactive_action c kp choice).
Proof.
  unfold interactive_action.
  repeat
    lazymatch goal with
    | |- respects _ (gui_comparison_demo _) => apply respects_gui_comparison_demo
    | |- _ => respects_step
    end.
Qed.

Lemma respects_interactive_round (kp : nat) : respects R (interactive_round c kp).
Proof.
  unfold interactive_round.
  repeat
    lazymatch goal with
    | |- respects _ (interactive_action _ _ _) => apply respects_interactive_action
    | |- _ => respects_step
    end.
Qed.

Lemma respects_interactive_loop (fuel kp : nat) :
  respects R (interactive_loop c fuel kp).
Proof.
  induction fuel as [|fuel IH]; cbn [interactive_loop]; [respects_all |].
  apply respects_bind; [apply respects_interactive_round | intros []];
    [exact IH | respects_all].
Qed.

Lemma respects_interactive_mode (with_gui : bool) :
  respects R (interactive_mode c with_gui).
Proof.
  unfold interactive_mode.
  repeat
    lazymatch goal with
    | |- respects _ (interactive_loop _ _ _) => apply respects_interactive_loop
    | |- _ => respects_step
    end.
Qed.

Lemma respects_dispatch (args : gmap string pyval) (db_path : pyval) :
  respects R (dispatch c args db_path).
Proof. unfold dispatch. respects_handlers. Qed.

Lemma respects_main_resolve (args : gmap string pyval) :
  respects R (main_resolve c args).
Proof.
  unfold main_resolve.
  repeat
    lazymatch goal with
    | |- respects _ (interactive_mode _ _) => apply respects_interactive_mode
    | |- respects _ (dispatch _ _ _) => apply respects_dispatch
    | |- respects _ (py_sum _) => apply respects_py_sum
    | |- _ => respects_step
    end.
Qed.

Lemma respects_parse_args (tokens : list string) : respects R (parse_args tokens).
Proof.
  unfold parse_args. destruct (parse_tokens tokens defaults); respects_all;
    apply R_emit; reflexivity.
Qed.

Lemma respects_main (tokens : list string) : respects R (main c tokens).
Proof.
  unfold main. apply respects_bind; [apply respects_parse_args | intros args].
  apply respects_main_resolve.
Qed.

Lemma respects_demo_py (argv : list string) : respects R (demo_py c argv).
Proof.
  unfold demo_py.
  repeat
    lazymatch goal with
    | |- respects _ (interactive_mode _ _) => apply respects_interactive_mode
    | |- respects _ (gui_comparison_demo _) => apply respects_gui_comparison_demo
    | |- respects _ (main _ _) => apply respects_main
    | |- _ => respects_step
    end.
Qed.

Lemma respects_kp1_block : respects R (kp1_block c).
Proof. unfold kp1_block. respects_all. Qed.

End Logic.

(** ** Reading the input, and the fuel of the interactive loop *)

Section Input.
Context {W : Type} (c : Collab W).

Lemma reads_on_with (path : string) (with_gui : bool) (body : nat -> M W unit) :
  (forall kp, respects reads_on (body kp)) ->
  respects reads_on (with_session c path with_gui body).
Proof.
  intros Hbody s. unfold reads_on, with_session, open_session, exit_session.
  destruct (kp_open c path with_gui (world s)) as [[[]|e] w1];
    cbn [stdin snd]; [| lia].
  match goal with |- context [body ?kp ?s1] =>
    pose proof (Hbody kp s1) as H; unfold reads_on in H;
    destruct (body kp s1) as [rb s2] end.
  cbn [stdin snd] in *.
  destruct (kp_exit c _ _ (world s2)) as [[b|e] w3], rb as [[]|e'];
    try destruct b; cbn [stdin snd]; exact H.
Qed.

Lemma reads_on_all (argv : list string) (kp : nat) (choice : string) :
  respects reads_on (demo_py c argv)
  /\ respects reads_on (interactive_action c kp choice).
Proof.
  assert (Hrefl : forall s : state W, reads_on s s) by (intros s; unfold reads_on; lia).
  assert (Htrans : forall s1 s2 s3 : state W,
             reads_on s1 s2 -> reads_on s2 s3 -> reads_on s1 s3)
    by (unfold reads_on; intros; lia).
  assert (Hemit : forall e, is_collaborator_call e = false ->
             respects (W := W) reads_on (emit e))
    by (intros e _ s; unfold reads_on; cbn; lia).
  assert (Hinput : forall text, respects (W := W) reads_on (input text)).
  { intros text s. unfold reads_on, input.
    destruct (stdin s) as [|[l|] rest]; cbn; lia. }
  assert (Hcall : forall A kp what (op : W -> result A * W),
             respects reads_on (call kp what op)).
  { intros A kp' what op s. unfold reads_on, call.
    destruct (op (world s)); cbn; lia. }
  split.
  - apply (respects_demo_py c reads_on Hrefl Htrans Hemit Hinput Hcall reads_on_with).
  - apply (respects_interactive_action c reads_on Hrefl Htrans Hemit Hinput Hcall
             reads_on_with).
Qed.

Lemma bind_print {A} (text : string) (m : M W A) (s : state W) :
  bind (print text) (fun _ => m) s = m (printed s text).
Proof. reflexivity. Qed.

Lemma bind_input_reads {A} (text : string) (k : string -> M W A)
    (s s' : state W) (a : A) :
  (forall line, respects reads_on (k line)) ->
  bind (input text) k s = (Ret a, s') ->
  length (stdin s') < length (stdin s).
Proof.
  intros Hk. unfold bind, input.
  destruct (stdin s) as [|[line|] rest] eqn:Hin; [discriminate | | discriminate].
  intros Hrun. specialize (Hk line). unfold respects, reads_on in Hk.
  match type of Hrun with k _ ?s1 = _ => specialize (Hk s1) end.
  rewrite Hrun in Hk. cbn [stdin snd length] in *. lia.
Qed.

(** A pass of the loop that ends normally has read at least one item. *)
Lemma interactive_round_reads (kp : nat) (s s' : state W) (again : bool) :
  interactive_round c kp s = (Ret again, s') ->
  length (stdin s') < length (stdin s).
Proof.
  unfold interactive_round. rewrite !bind_print. intros Hrun.
  apply bind_input_reads in Hrun.
  - exact Hrun.
  - intros line. apply (reads_on_all [] kp (strip line)).
Qed.

(** The loop never runs out of passes: with more passes allowed than there
    are input items left, the number of passes allowed does not matter. *)
Lemma interactive_loop_fuel (n m kp : nat) (s : state W) :
  length (stdin s) < n -> length (stdin s) < m ->
  interactive_loop c n kp s = interactive_loop c m kp s.
Proof.
  revert m s. induction n as [|n IH]; intros m s Hn Hm; [lia |].
  destruct m as [|m]; [lia |]. cbn [interactive_loop]. unfold bind.
  destruct (interactive_round c kp s) as [[again|e] s'] eqn:Hround;
    [| reflexivity].
  destruct again; [| reflexivity].
  pose proof (interactive_round_reads kp s s' true Hround).
  apply IH; lia.
Qed.

End Input.

(** ** Sessions are left once (C10) *)

Lemma opened_app (l1 l2 : list event) : opened (l1 ++ l2) = opened l1 ++ opened l2.
Proof. apply omap_app. Qed.

Lemma released_app (l1 l2 : list event) :
  released (l1 ++ l2) = released l1 ++ released l2.
Proof. apply omap_app. Qed.

Lemma scoped_refl {W} (s : state W) : scoped s s.
Proof.
  exists [], 0. rewrite app_nil_r, Nat.add_0_r. repeat split; reflexivity.
Qed.

Lemma scoped_trans {W} (s1 s2 s3 : state W) :
  scoped s1 s2 -> scoped s2 s3 -> scoped s1 s3.
Proof.
  intros (d1 & k1 & Ht1 & Hn1 & Ho1 & Hr1) (d2 & k2 & Ht2 & Hn2 & Ho2 & Hr2).
  exists (d1 ++ d2), (k1 + k2). repeat split.
  - rewrite Ht2, Ht1, app_assoc. reflexivity.
  - lia.
  - rewrite opened_app, Ho1, Ho2, Hn1. symmetry. apply seq_app.
  - rewrite released_app, opened_app, Hr1, Hr2. reflexivity.
Qed.

Lemma scoped_quiet {W} (s s' : state W) (events : list event) :
  trace s' = trace s ++ events -> next_session s' = next_session s ->
  opened events = [] -> released events = [] -> scoped s s'.
Proof.
  intros Ht Hn Ho Hr. exists events, 0.
  rewrite Nat.add_0_r, Ho, Hr. repeat split; auto.
Qed.

Section Sessions.
Context {W : Type} (c : Collab W).

Lemma scoped_emit (e : event) :
  is_collaborator_call e = false -> respects (W := W) scoped (emit e).
Proof.
  intros He s. apply (scoped_quiet _ _ [e]); [reflexivity .. | |];
    destruct e; try reflexivity; discriminate.
Qed.

Lemma scoped_input (text : string) : respects (W := W) scoped (input text).
Proof.
  intros s. unfold input.
  destruct (stdin s) as [|[l|] rest];
    apply (scoped_quiet _ _ [Prompt text]); reflexivity.
Qed.

Lemma scoped_call A (kp : nat) (what : kp_call) (op : W -> result A * W) :
  respects scoped (call kp what op).
Proof.
  intros s. unfold call. destruct (op (world s)) as [r w].
  apply (scoped_quiet _ _ [KpCall kp what]); reflexivity.
Qed.

Lemma scoped_with (path : string) (with_gui : bool) (body : nat -> M W unit) :
  (forall kp, respects scoped (body kp)) ->
  respects scoped (with_session c path with_gui body).
Proof.
  intros Hbody s. unfold with_session, open_session, exit_session.
  destruct (kp_open c path with_gui (world s)) as [[[]|e] w1]; cbn [snd].
  - match goal with |- context [body ?kp ?s1] =>
      destruct (Hbody kp s1) as (d & k & Ht & Hn & Ho & Hr);
      destruct (body kp s1) as [rb s2] end.
    cbn [trace stdin world next_session snd] in *.
    assert (Hgoal : forall w3,
      scoped s (mkState (trace s2 ++ [KpExit (next_session s)]) (stdin s2) w3
                  (next_session s2))).
    { intros w3.
      exists ([KpOpen path with_gui (Some (next_session s))] ++ d
              ++ [KpExit (next_session s)]), (S k).
      cbn [trace next_session]. repeat split.
      - rewrite Ht, <- !app_assoc. reflexivity.
      - lia.
      - rewrite !opened_app, Ho. cbn. rewrite app_nil_r. reflexivity.
      - rewrite !released_app, !opened_app, Hr. cbn.
        rewrite app_nil_r, Permutation_app_comm. reflexivity. }
    destruct (kp_exit c _ _ (world s2)) as [[b|e] w3], rb as [[]|e'];
      try destruct b; cbn [snd]; apply Hgoal.
  - apply (scoped_quiet _ _ [KpOpen path with_gui None]); reflexivity.
Qed.

End Sessions.

Ltac scoped_premises c :=
  first [ exact scoped_refl | exact scoped_trans | exact scoped_emit
        | exact scoped_input | exact scoped_call | exact (scoped_with c) ].

Section Released.
Context {W : Type} (c : Collab W).

Lemma scoped_entry (ep : entry_point) : respects scoped (run_entry c ep).
Proof.
  destruct ep; cbn [run_entry];
    [ apply respects_get_credentials_demo | apply respects_get_full_entry_demo
    | apply respects_autotype_demo | apply respects_search_entries_demo
    | apply respects_gui_comparison_demo | apply respects_interactive_mode
    | apply respects_main | apply respects_demo_py ];
    scoped_premises c.
Qed.

Lemma scoped_kp1_block : respects scoped (kp1_block c).
Proof. apply respects_kp1_block; scoped_premises c. Qed.

Lemma scoped_released_once (s s' : state W) :
  scoped s s' ->
  exists events,
    trace s' = trace s ++ events
    /\ NoDup (opened events)
    /\ released events ≡ₚ opened events.
Proof.
  intros (events & k & Ht & _ & Ho & Hr). exists events.
  split; [exact Ht |]. split; [| exact Hr]. rewrite Ho. apply NoDup_seq.
Qed.

(** The second block of demo_minimalistic.py enters no [with]: it opens no
    session and leaves none. *)
Lemma kp2_block_acquires_nothing (s : state W) :
  exists events,
    trace (kp2_block c s).2 = trace s ++ events
    /\ opened events = []
    /\ released events = [].
Proof.
  unfold kp2_block, try_except, bind, construct, call, print, emit.
  destruct (kp_init c db_file false (world s)) as [[[]|e] w1];
    cbn [trace stdin world next_session fst snd].
  - destruct (kp_get_entry_count c (next_session s) w1) as [[n|e] w2];
      cbn [trace stdin world next_session fst snd].
    + eexists. rewrite <- !app_assoc. split; [reflexivity |].
      split; reflexivity.
    + unfold except_Exception. destruct (is_Exception e);
        cbn [trace stdin world next_session fst snd];
        eexists; rewrite <- !app_assoc; (split; [reflexivity |]);
        split; reflexivity.
  - unfold except_Exception. destruct (is_Exception e);
      cbn [trace stdin world next_session fst snd];
      eexists; rewrite <- ?app_assoc; (split; [reflexivity |]);
      split; reflexivity.
Qed.

Lemma released_once_demo_minimalistic (s : state W) :
  exists events,
    trace (demo_minimalistic c s).2 = trace s ++ events
    /\ NoDup (opened events)
    /\ released events ≡ₚ opened events.
Proof.
  destruct (scoped_released_once s _ (scoped_kp1_block s))
    as (d1 & Ht1 & Hn1 & Hr1).
  unfold demo_minimalistic, bind.
  destruct (kp1_block c s) as [[[]|e] s1]; cbn [fst snd] in *.
  - destruct (kp2_block_acquires_nothing s1) as (d2 & Ht2 & Ho2 & Hr2).
    exists (d1 ++ d2). rewrite Ht2, Ht1, <- app_assoc.
    split; [reflexivity |].
    unfold opened, released in *. rewrite !omap_app, Ho2, Hr2, !app_nil_r.
    split; assumption.
  - exists d1. split; [exact Ht1 |]. split; assumption.
Qed.

End Released.

(** C10. Whatever the collaborator, the input and the state: (1) on every
    way into demo.py (a handler, interactive mode, [main], the script
    itself) and (2) on the whole of demo_minimalistic.py, the sessions the
    run acquires are named apart and the sessions it leaves are those, each
    once: every session is left exactly once, however the block that holds
    it ends (normal return, handled error or failure that goes on). (3) The
    second block of demo_minimalistic.py, which builds [kp2] by calling the
    constructor outside any [with], acquires no session and leaves none. *)
Theorem with_sessions_released_once {W} (c : Collab W) (s : state W) :
  (forall ep : entry_point,
     exists events,
       trace (run_entry c ep s).2 = trace s ++ events
       /\ NoDup (opened events)
       /\ released events ≡ₚ opened events)
  /\ (exists events,
        trace (demo_minimalistic c s).2 = trace s ++ events
        /\ NoDup (opened events)
        /\ released events ≡ₚ opened events)
  /\ (exists events,
        trace (kp2_block c s).2 = trace s ++ events
        /\ opened events = []
        /\ released events = []).
Proof.
  split; [| split].
  - intros ep. apply scoped_released_once, scoped_entry.
  - apply released_once_demo_minimalistic.
  - apply kp2_block_acquires_nothing.
Qed.

(** ** The database of interactive mode (C4) *)

Section Interactive_path.
Context {W : Type} (c : Collab W).

Lemma scoped_interactive_body (kp : nat) :
  respects scoped (fuel <- passes_needed ;; interactive_loop c fuel kp).
Proof.
  apply respects_bind; [exact scoped_trans | apply respects_passes_needed |].
  - exact scoped_refl.
  - intros fuel. apply respects_interactive_loop; scoped_premises c.
Qed.

Lemma interactive_mode_opens_first (with_gui : bool) (s : state W) :
  exists session rest,
    trace (interactive_mode c with_gui s).2
    = trace s
      ++ [ Print (nl +:+ "=== KeePass Interactive Mode (using "
                  +:+ input_method with_gui +:+ " input) ===");
           KpOpen "~\Losenordslista_SD_Personlig.kdbx" with_gui session ]
      ++ rest.
Proof.
  unfold interactive_mode, bind at 1, print at 1, emit.
  change (negb (nonempty interactive_db_path)) with false. cbv iota.
  unfold try_except, with_session, open_session, exit_session.
  cbn [trace stdin world next_session].
  destruct (kp_open c interactive_db_path with_gui (world s)) as [[[]|e] w1].
  - match goal with |- context [bind passes_needed ?k ?s1] =>
      destruct (scoped_interactive_body (next_session s) s1)
        as (d & k' & Ht & _);
      destruct (bind passes_needed k s1) as [rb s2] end.
    cbn [trace stdin world next_session snd] in Ht.
    destruct (kp_exit c _ _ (world s2)) as [[b|e] w3], rb as [[]|e'];
      try destruct b; cbn [trace fst snd];
      try (unfold except_Exception;
           match goal with |- context [is_Exception ?x] =>
             destruct (is_Exception x) end;
           unfold print, emit);
      cbn [trace fst snd]; rewrite Ht, <- !app_assoc; cbn [app];
      do 2 eexists; reflexivity.
  - unfold except_Exception. destruct (is_Exception e); unfold print, emit;
      cbn [trace fst snd]; rewrite <- ?app_assoc; cbn [app];
      do 2 eexists; reflexivity.
Qed.

Lemma main_resolve_interactive (args : gmap string pyval) (s : state W) :
  Namespace_ok args -> flag args "interactive" = true ->
  main_resolve c args s
  = interactive_mode c (flag args "gui")
      (mkState (trace s ++ [BasicConfig (flag args "verbose")])
               (stdin s) (world s) (next_session s)).
Proof.
  intros Hns Hi. unfold main_resolve.
  rewrite (getattr_defined _ _ _ (Namespace_ok_store_true args "verbose" Hns eq_refl)).
  rewrite (getattr_defined _ _ _ (Namespace_ok_store_true args "interactive" Hns eq_refl)).
  rewrite (getattr_defined _ _ _ (Namespace_ok_store_true args "gui" Hns eq_refl)).
  unfold bind at 1 2 3 4, ret, setup_logging, emit. cbn [truthy]. rewrite Hi.
  reflexivity.
Qed.

End Interactive_path.

(** C4. (1) Every call of [interactive_mode] prints its heading and then
    opens [~\Losenordslista_SD_Personlig.kdbx]: the path is the fixed one and
    the session is opened before anything is read from the user. (2) When
    the arguments ask for interactive mode, [main] is that call, on the
    value of [--gui], after the logging set-up: the value of [--db] has no
    part in it. *)
Theorem interactive_mode_fixed_database {W} (c : Collab W) (s : state W) :
  (forall with_gui,
     exists session rest,
       trace (interactive_mode c with_gui s).2
       = trace s
         ++ [ Print (nl +:+ "=== KeePass Interactive Mode (using "
                     +:+ input_method with_gui +:+ " input) ===");
              KpOpen "~\Losenordslista_SD_Personlig.kdbx" with_gui session ]
         ++ rest)
  /\ (forall tokens args,
        parse_tokens tokens defaults = Parsed args ->
        flag args "interactive" = true ->
        main c tokens s
        = interactive_mode c (flag args "gui")
            (mkState (trace s ++ [BasicConfig (flag args "verbose")])
                     (stdin s) (world s) (next_session s))).
Proof.
  split.
  - intros with_gui. apply interactive_mode_opens_first.
  - intros tokens args Hparse Hi.
    pose proof (parse_tokens_ok _ _ _ Namespace_ok_defaults Hparse) as Hns.
    unfold main, bind. rewrite (parse_args_parsed tokens args s Hparse).
    apply main_resolve_interactive; assumption.
Qed.

Lemma interactive_mode_fixed_database_witness :
  parse_tokens ["--db"; "other.kdbx"; "--interactive"; "--gui"] defaults
  = Parsed sample_interactive_args
  /\ main (sample_collab true true)
       ["--db"; "other.kdbx"; "--interactive"; "--gui"] (start [Line "6"])
     = interactive_mode (sample_collab true true)
         (flag sample_interactive_args "gui")
         (mkState (trace (start [Line "6"])
                   ++ [BasicConfig (flag sample_interactive_args "verbose")])
                  (stdin (start [Line "6"])) (world (start [Line "6"]))
                  (next_session (start [Line "6"])))
  /\ trace (interactive_mode (sample_collab true true) true
              (mkState [BasicConfig false] [Line "6"] tt 0)).2
     = [ BasicConfig false;
         Print (nl +:+ "=== KeePass Interactive Mode (using GUI input) ===");
         KpOpen "~\Losenordslista_SD_Personlig.kdbx" true (Some 0);
         Print (nl +:+ str_mul "=" 50);
         Print "Available actions:";
         Print "1. Search entries";
         Print "2. Get credentials";
         Print "3. Get full entry details";
         Print "4. Execute autotype sequence";
         Print "5. Compare GUI vs console";
         Print "6. Exit";
         Prompt (nl +:+ "Enter your choice (1-6): ");
         Print "Exiting interactive mode...";
         KpExit 0 ].
Proof.
  assert (Hparse : parse_tokens ["--db"; "other.kdbx"; "--interactive"; "--gui"] defaults
                   = Parsed sample_interactive_args)
    by (vm_compute; reflexivity).
  split; [exact Hparse |]. split.
  - apply (proj2 (interactive_mode_fixed_database (sample_collab true true)
                    (start [Line "6"]))
             ["--db"; "other.kdbx"; "--interactive"; "--gui"]
             sample_interactive_args Hparse).
    vm_compute. reflexivity.
  - vm_compute. reflexivity.
Defined.

(** ** Passwords do not show (C6) *)

Lemma password_mask_replaced (g : string -> string) (pass : field) :
  (forall p, String.length (g p) = String.length p) ->
  password_mask (g <$> pass) = password_mask pass.
Proof.
  intros Hg. destruct pass as [p|]; [| reflexivity]. cbn [fmap option_fmap option_map].
  unfold password_mask. rewrite !nonempty_length, Hg. reflexivity.
Qed.

Lemma unique_by_uuid_replaced (g : string -> string) (entries : list Entry) :
  unique_by_uuid (replace_password g <$> entries)
  = replace_password g <$> unique_by_uuid entries.
Proof.
  unfold unique_by_uuid, dict_by_uuid.
  assert (Hset : forall e (d : list (N * Entry)),
            dict_set (uuid (replace_password g e)) (replace_password g e)
              (prod_map id (replace_password g) <$> d)
            = prod_map id (replace_password g) <$> dict_set (uuid e) e d).
  { intros e d. induction d as [|[k v] d IH]; cbn; [reflexivity |].
    destruct (N.eqb (uuid e) k); cbn; [reflexivity |]. f_equal. exact IH. }
  assert (Hfold : forall (d : list (N * Entry)),
            fold_left (fun d entry => dict_set (uuid entry) entry d)
              (replace_password g <$> entries)
              (prod_map id (replace_password g) <$> d)
            = prod_map id (replace_password g)
                <$> fold_left (fun d entry => dict_set (uuid entry) entry d) entries d).
  { induction entries as [|e entries IH]; intros d; cbn [fmap list_fmap fold_left];
      [reflexivity |]. rewrite Hset. apply IH. }
  specialize (Hfold []). cbn [fmap list_fmap] in Hfold. rewrite Hfold.
  rewrite <- !list_fmap_compose. apply list_fmap_ext. intros i [k v] _. reflexivity.
Qed.

Section Replaced.
Context {W : Type} (c : Collab W) (f : W -> string -> string).
Hypothesis f_length : forall w p, String.length (f w p) = String.length p.

Lemma same_refl {A} (m : M W A) : same m m.
Proof. intros s. reflexivity. Qed.

Lemma same_bind {A B} (m1 m2 : M W A) (k1 k2 : A -> M W B) :
  same m1 m2 -> (forall a, same (k1 a) (k2 a)) -> same (bind m1 k1) (bind m2 k2).
Proof.
  intros Hm Hk s. unfold bind. rewrite (Hm s).
  destruct (m2 s) as [[a|e] s1]; [apply Hk | reflexivity].
Qed.

Lemma same_try {A} (m1 m2 : M W A) (h : exn -> option (M W A)) :
  same m1 m2 -> same (try_except m1 h) (try_except m2 h).
Proof. intros Hm s. unfold try_except. rewrite (Hm s). reflexivity. Qed.

Lemma same_with (path : string) (with_gui : bool) (body1 body2 : nat -> M W unit) :
  (forall kp, same (body1 kp) (body2 kp)) ->
  same (with_session (with_passwords f c) path with_gui body1)
       (with_session c path with_gui body2).
Proof.
  intros Hbody s. unfold with_session, open_session. cbn [kp_open with_passwords].
  destruct (kp_open c path with_gui (world s)) as [[[]|e] w1]; [| reflexivity].
  rewrite Hbody. reflexivity.
Qed.

(** The three calls that hand back passwords, each with what the handlers
    do with the answer. *)
Lemma same_credentials {A} (kp : nat) (t : string) (k : field * field -> M W A) :
  (forall g user pass,
     (forall p, String.length (g p) = String.length p) ->
     same (k (user, g <$> pass)) (k (user, pass))) ->
  same (bind (call kp (GetCredentials t)
                (kp_get_credentials (with_passwords f c) kp t)) k)
       (bind (call kp (GetCredentials t) (kp_get_credentials c kp t)) k).
Proof.
  intros Hk s. unfold bind, call. cbn [kp_get_credentials with_passwords].
  destruct (kp_get_credentials c kp t (world s)) as [[[user pass]|e] w'];
    [| reflexivity].
  apply Hk, f_length.
Qed.

Lemma same_entry {A} (kp : nat) (t : string) (k : Entry -> M W A) :
  (forall g entry,
     (forall p, String.length (g p) = String.length p) ->
     same (k (replace_password g entry)) (k entry)) ->
  same (bind (call kp (GetEntry t) (kp_get_entry (with_passwords f c) kp t)) k)
       (bind (call kp (GetEntry t) (kp_get_entry c kp t)) k).
Proof.
  intros Hk s. unfold bind, call. cbn [kp_get_entry with_passwords].
  destruct (kp_get_entry c kp t (world s)) as [[entry|e] w']; [| reflexivity].
  apply Hk, f_length.
Qed.

Lemma same_search {A} (kp : nat) (t : string) (n : nat) (k : list Entry -> M W A) :
  (forall g entries, same (k (replace_password g <$> entries)) (k entries)) ->
  same (bind (call kp (SearchEntries t n)
                (kp_search_entries (with_passwords f c) kp t n)) k)
       (bind (call kp (SearchEntries t n) (kp_search_entries c kp t n)) k).
Proof.
  intros Hk s. unfold bind, call. cbn [kp_search_entries with_passwords].
  destruct (kp_search_entries c kp t n (world s)) as [[entries|e] w'];
    [| reflexivity].
  apply Hk.
Qed.

Lemma same_get_credentials_demo (db_path entry_title : string) (with_gui : bool) :
  same (get_credentials_demo (with_passwords f c) db_path entry_title with_gui)
       (get_credentials_demo c db_path entry_title with_gui).
Proof.
  unfold get_credentials_demo.
  apply same_bind; [apply same_refl | intros _].
  apply same_try, same_with. intros kp. apply same_credentials.
  intros g user pass Hg. cbn [fst snd].
  rewrite (password_mask_replaced g pass Hg). apply same_refl.
Qed.

Lemma same_get_full_entry_demo (db_path entry_title : string) (with_gui : bool) :
  same (get_full_entry_demo (with_passwords f c) db_path entry_title with_gui)
       (get_full_entry_demo c db_path entry_title with_gui).
Proof.
  unfold get_full_entry_demo.
  apply same_bind; [apply same_refl | intros _].
  apply same_try, same_with. intros kp. apply same_entry.
  intros g entry Hg. unfold replace_password.
  cbn [title username password url notes autotype_sequence].
  rewrite (password_mask_replaced g (password entry) Hg). apply same_refl.
Qed.

Lemma same_autotype_demo (db_path entry_title : string) (with_gui : bool) :
  same (autotype_demo (with_passwords f c) db_path entry_title with_gui)
       (autotype_demo c db_path entry_title with_gui).
Proof.
  unfold autotype_demo.
  do 4 (apply same_bind; [apply same_refl | intros _]).
  apply same_try, same_with. intros kp. apply same_refl.
Qed.

Lemma print_matches_replaced (g : string -> string) (entries : list Entry) (i : nat) :
  same (print_matches (W := W) i (replace_password g <$> entries))
       (print_matches i entries).
Proof.
  revert i. induction entries as [|e entries IH]; intros i;
    cbn [fmap list_fmap print_matches]; [apply same_refl |].
  apply same_bind; [apply same_refl | intros _; apply IH].
Qed.

Lemma same_search_entries_demo (db_path search_term : string) (with_gui : bool) :
  same (search_entries_demo (with_passwords f c) db_path search_term with_gui)
       (search_entries_demo c db_path search_term with_gui).
Proof.
  unfold search_entries_demo.
  apply same_bind; [apply same_refl | intros _].
  apply same_try, same_with. intros kp. apply same_search.
  intros g entries. cbv zeta. rewrite unique_by_uuid_replaced.
  destruct (unique_by_uuid entries) as [|e0 kept]; [apply same_refl |].
  rewrite length_fmap.
  change (replace_password g <$> e0 :: kept)
    with (replace_password g e0 :: (replace_password g <$> kept)) at 1.
  cbv iota.
  do 2 (apply same_bind; [apply same_refl | intros _]).
  apply (print_matches_replaced g (e0 :: kept)).
Qed.

Lemma same_count_entries (db_path : string) (with_gui : bool) :
  same (count_entries (with_passwords f c) db_path with_gui)
       (count_entries c db_path with_gui).
Proof. unfold count_entries. apply same_with. intros kp. apply same_refl. Qed.

Lemma same_gui_comparison_demo :
  same (gui_comparison_demo (with_passwords f c)) (gui_comparison_demo c).
Proof.
  unfold gui_comparison_demo.
  do 2 (apply same_bind; [apply same_refl | intros _]).
  apply same_bind; [apply same_refl | intros line]. cbv zeta.
  destruct (negb (nonempty (strip line))); [apply same_refl |].
  apply same_try.
  do 2 (apply same_bind; [apply same_refl | intros _]).
  apply same_bind.
  - unfold console_pass. apply same_try, same_bind;
      [apply same_count_entries | intros _; apply same_refl].
  - intros go_on. destruct (negb go_on); [apply same_refl |].
    do 2 (apply same_bind; [apply same_refl | intros _]).
    apply same_bind; [| intros _; apply same_refl].
    unfold gui_pass. apply same_try, same_count_entries.
Qed.

Lemma same_interactive_action (kp : nat) (choice : string) :
  same (interactive_action (with_passwords f c) kp choice)
       (interactive_action c kp choice).
Proof.
  unfold interactive_action.
  destruct (String.eqb choice "1"); [apply same_refl |].
  destruct (String.eqb choice "2").
  { apply same_bind; [apply same_refl | intros line]. cbv zeta.
    apply same_bind; [| intros _; apply same_refl].
    destruct (nonempty (strip line)); [| apply same_refl].
    apply same_try, same_credentials. intros g user pass Hg. cbn [fst snd].
    rewrite (password_mask_replaced g pass Hg). apply same_refl. }
  destruct (String.eqb choice "3").
  { apply same_bind; [apply same_refl | intros line]. cbv zeta.
    apply same_bind; [| intros _; apply same_refl].
    destruct (nonempty (strip line)); [| apply same_refl].
    apply same_try, same_entry. intros g entry Hg.
    unfold replace_password.
    cbn [title username password url notes autotype_sequence].
    rewrite (password_mask_replaced g (password entry) Hg). apply same_refl. }
  destruct (String.eqb choice "4"); [apply same_refl |].
  destruct (String.eqb choice "5");
    [apply same_bind; [apply same_gui_comparison_demo | intros _; apply same_refl] |].
  apply same_refl.
Qed.

Lemma same_interactive_loop (fuel kp : nat) :
  same (interactive_loop (with_passwords f c) fuel kp) (interactive_loop c fuel kp).
Proof.
  induction fuel as [|fuel IH]; cbn [interactive_loop]; [apply same_refl |].
  apply same_bind.
  - unfold interactive_round.
    do 8 (apply same_bind; [apply same_refl | intros _]).
    apply same_bind; [apply same_refl | intros line].
    apply same_interactive_action.
  - intros []; [exact IH | apply same_refl].
Qed.

Lemma same_interactive_mode (with_gui : bool) :
  same (interactive_mode (with_passwords f c) with_gui) (interactive_mode c with_gui).
Proof.
  unfold interactive_mode.
  apply same_bind; [apply same_refl | intros _]. cbv zeta.
  destruct (negb (nonempty interactive_db_path)); [apply same_refl |].
  apply same_try, same_with. intros kp.
  apply same_bind; [apply same_refl | intros fuel]. apply same_interactive_loop.
Qed.

Lemma same_dispatch (args : gmap string pyval) (db_path : pyval) :
  same (dispatch (with_passwords f c) args db_path) (dispatch c args db_path).
Proof.
  unfold dispatch. apply same_try.
  apply same_bind; [apply same_refl | intros search].
  destruct (truthy search).
  { apply same_bind; [apply same_refl | intros gui]. apply same_search_entries_demo. }
  apply same_bind; [apply same_refl | intros a1].
  destruct (truthy a1).
  { apply same_bind; [apply same_refl | intros entry].
    destruct (negb (truthy entry)); [apply same_refl |].
    apply same_bind; [apply same_refl | intros gui]. apply same_get_credentials_demo. }
  apply same_bind; [apply same_refl | intros a2].
  destruct (truthy a2).
  { apply same_bind; [apply same_refl | intros entry].
    destruct (negb (truthy entry)); [apply same_refl |].
    apply same_bind; [apply same_refl | intros gui]. apply same_get_full_entry_demo. }
  apply same_bind; [apply same_refl | intros a3].
  destruct (truthy a3); [| apply same_refl].
  apply same_bind; [apply same_refl | intros entry].
  destruct (negb (truthy entry)); [apply same_refl |].
  apply same_bind; [apply same_refl | intros gui]. apply same_autotype_demo.
Qed.

Lemma same_main (tokens : list string) :
  same (main (with_passwords f c) tokens) (main c tokens).
Proof.
  unfold main. apply same_bind; [apply same_refl | intros args].
  unfold main_resolve.
  do 3 (apply same_bind; [apply same_refl | intros ?]).
  destruct (truthy _).
  { apply same_bind; [apply same_refl | intros gui]. apply same_interactive_mode. }
  apply same_bind; [apply same_refl | intros db].
  destruct (negb (truthy db)); [apply same_refl |]. cbv zeta.
  do 6 (apply same_bind; [apply same_refl | intros ?]).
  destruct (_ =? 0)%nat; [apply same_refl |].
  destruct (1 <? _)%nat; [apply same_refl |].
  apply same_dispatch.
Qed.

Lemma same_demo_py (argv : list string) :
  same (demo_py (with_passwords f c) argv) (demo_py c argv).
Proof.
  unfold demo_py.
  do 2 (apply same_bind; [apply same_refl | intros _]).
  destruct (length argv =? 1)%nat.
  { do 8 (apply same_bind; [apply same_refl | intros _]).
    apply same_bind; [apply same_refl | intros line]. cbv zeta.
    apply same_bind; [| intros _; apply same_refl].
    destruct (yes _); [| apply same_refl].
    apply same_bind; [apply same_refl | intros line2]. cbv zeta.
    apply same_interactive_mode. }
  destruct (_ && _).
  { apply same_bind; [apply same_gui_comparison_demo | intros _; apply same_refl]. }
  apply same_main.
Qed.

Lemma same_demo_minimalistic :
  same (demo_minimalistic (with_passwords f c)) (demo_minimalistic c).
Proof.
  unfold demo_minimalistic, kp1_block, kp2_block.
  apply same_bind; [| intros _; apply same_refl].
  apply same_try, same_with. intros kp. apply same_refl.
Qed.

End Replaced.

(** C6. Take any collaborator, and replace every password it hands back
    (by [get_credentials], in an entry, in the entries of a search) by any
    string of the same length, chosen anew at every call. Then every way
    into demo.py, and demo_minimalistic.py, gives from every state the same
    result and the same final state: the same trace, so the same lines
    printed, the same prompts and the same calls. What is printed depends on
    a password through its length only. *)
Theorem passwords_do_not_show
    {W} (c : Collab W) (f : W -> string -> string) :
  (forall w p, String.length (f w p) = String.length p) ->
  (forall (ep : entry_point) (s : state W),
     run_entry (with_passwords f c) ep s = run_entry c ep s)
  /\ (forall s : state W,
        demo_minimalistic (with_passwords f c) s = demo_minimalistic c s).
Proof.
  intros Hf. split.
  - intros ep s. destruct ep; cbn [run_entry].
    + apply same_get_credentials_demo, Hf.
    + apply same_get_full_entry_demo, Hf.
    + apply same_autotype_demo.
    + apply same_search_entries_demo.
    + apply same_gui_comparison_demo.
    + apply same_interactive_mode, Hf.
    + apply same_main, Hf.
    + apply same_demo_py, Hf.
  - intros s. apply same_demo_minimalistic.
Qed.

Lemma str_mul_char_length (a : ascii) (n : nat) :
  String.length (str_mul (String a "") n) = n.
Proof. induction n as [|n IH]; simpl; [reflexivity | f_equal; exact IH]. Qed.

Lemma passwords_do_not_show_witness :
  kp_get_credentials
    (with_passwords (fun _ p => str_mul "x" (String.length p))
       (sample_collab true true)) 0 "Site" tt
  = (Ret (Some "alice", Some "xxxx"), tt)
  /\ kp_get_credentials (sample_collab true true) 0 "Site" tt
     = (Ret (Some "alice", Some "p4ss"), tt)
  /\ run_entry
       (with_passwords (fun _ p => str_mul "x" (String.length p))
          (sample_collab true true))
       (Get_credentials_demo "x.kdbx" "Site" false) (start [])
     = run_entry (sample_collab true true)
         (Get_credentials_demo "x.kdbx" "Site" false) (start []).
Proof.
  split; [reflexivity |]. split; [reflexivity |].
  apply (proj1 (passwords_do_not_show (sample_collab true true)
                  (fun _ p => str_mul "x" (String.length p))
                  (fun _ p => str_mul_char_length "x" (String.length p)))).
Defined.

(** * Further properties of the scripts *)

(** ** The countdown and the prompt of the comparison *)

Section Countdown.
Context {W : Type} (c : Collab W).

Lemma countdown_trace (n : nat) (s : state W) :
  countdown n s = (Ret tt, logged s (countdown_events n)).
Proof.
  revert s. induction n as [|n IH]; intros s.
  - unfold logged. cbn [countdown countdown_events]. unfold ret.
    rewrite app_nil_r. destruct s; reflexivity.
  - cbn [countdown countdown_events]. unfold bind, print_cr, time_sleep, emit.
    rewrite IH. unfold logged. cbn [trace stdin world next_session].
    rewrite <- !app_assoc. reflexivity.
Qed.

End Countdown.

(** X2. The prompt of [gui_comparison_demo] stands before its [try]: what
    [input] raises there leaves the function. When the input is exhausted
    the run ends by [EOFError], and when the user interrupts by
    [KeyboardInterrupt], having printed the banner and asked for the path;
    no failure is reported and nothing is opened. *)
Theorem comparison_prompt_unguarded {W} (c : Collab W) (s : state W) :
  (stdin s = [] ->
   gui_comparison_demo c s
   = (Raise (EOFError "EOF when reading a line"),
      mkState (trace s
               ++ [ Print (nl +:+ "🔄 GUI vs Console Input Comparison Demo");
                    Print (str_mul "=" 50);
                    Prompt "Enter path to KeePass database file for comparison: " ])
              [] (world s) (next_session s)))
  /\ (forall rest,
        stdin s = CtrlC :: rest ->
        gui_comparison_demo c s
        = (Raise KeyboardInterrupt,
           mkState (trace s
                    ++ [ Print (nl +:+ "🔄 GUI vs Console Input Comparison Demo");
                         Print (str_mul "=" 50);
                         Prompt "Enter path to KeePass database file for comparison: " ])
                   rest (world s) (next_session s))).
Proof.
  split.
  - intros Hin. unfold gui_comparison_demo, bind at 1 2 3, print, emit, input.
    cbn [trace stdin world next_session]. rewrite Hin.
    rewrite <- !app_assoc. reflexivity.
  - intros rest Hin. unfold gui_comparison_demo, bind at 1 2 3, print, emit, input.
    cbn [trace stdin world next_session]. rewrite Hin.
    rewrite <- !app_assoc. reflexivity.
Qed.

Lemma comparison_prompt_unguarded_witness :
  (gui_comparison_demo (sample_collab true true) (start [])).1
  = Raise (EOFError "EOF when reading a line")
  /\ (gui_comparison_demo (sample_collab true true) (start [CtrlC; Line "6"])).1
     = Raise KeyboardInterrupt.
Proof.
  split.
  - exact (f_equal fst
             (proj1 (comparison_prompt_unguarded (sample_collab true true)
                       (start [])) eq_refl)).
  - exact (f_equal fst
             (proj2 (comparison_prompt_unguarded (sample_collab true true)
                       (start [CtrlC; Line "6"])) [Line "6"] eq_refl)).
Defined.

(** ** What the handlers report *)

Section Reports.
Context {W : Type} (c : Collab W).

(** A [with] inside a [try], when the database opens, the block raises [e]
    in [s2] and [__exit__] lets it pass: the session is left, then the
    [except] clauses see [e]. *)
Lemma handled_with_raised (h : exn -> option (M W unit)) (path : string)
    (with_gui : bool) (body : nat -> M W unit) (s s2 : state W) (w1 w3 : W)
    (e : exn) :
  kp_open c path with_gui (world s) = (Ret tt, w1) ->
  body (next_session s) (opened_state path with_gui w1 s) = (Raise e, s2) ->
  kp_exit c (next_session s) (Some e) (world s2) = (Ret false, w3) ->
  try_except (with_session c path with_gui body) h s
  = match h e with
    | Some k =>
        k (mkState (trace s2 ++ [KpExit (next_session s)]) (stdin s2) w3
             (next_session s2))
    | None =>
        (Raise e,
         mkState (trace s2 ++ [KpExit (next_session s)]) (stdin s2) w3
           (next_session s2))
    end.
Proof.
  intros Hopen Hbody Hexit.
  unfold try_except, with_session, open_session, exit_session.
  rewrite Hopen. fold (opened_state path with_gui w1 s). rewrite Hbody, Hexit.
  reflexivity.
Qed.

(** A [with] inside a [try] starts by the attempt to open, whatever
    follows. *)
Lemma try_with_opens_first (h : exn -> option (M W unit)) (path : string)
    (with_gui : bool) (body : nat -> M W unit) (s : state W) :
  (forall kp s1, exists d, trace (body kp s1).2 = trace s1 ++ d) ->
  appends h ->
  exists session rest,
    trace (try_except (with_session c path with_gui body) h s).2
    = trace s ++ [KpOpen path with_gui session] ++ rest.
Proof.
  intros Hbody Hh.
  assert (Hhandle : forall (r : result unit) (s1 : state W) (d : list event),
            trace s1 = trace s ++ d ->
            exists rest,
              trace (match r with
                     | Ret a => (Ret a, s1)
                     | Raise e => match h e with
                                  | Some k => k s1
                                  | None => (Raise e, s1)
                                  end
                     end).2 = trace s ++ d ++ rest).
  { intros [a|e] s1 d Hs1.
    - exists []. rewrite app_nil_r. exact Hs1.
    - destruct (h e) as [k|] eqn:Ek.
      + destruct (Hh e k s1 Ek) as (d' & Hd'). exists d'.
        rewrite Hd', Hs1, app_assoc. reflexivity.
      + exists []. rewrite app_nil_r. exact Hs1. }
  unfold try_except, with_session, open_session, exit_session.
  destruct (kp_open c path with_gui (world s)) as [[[]|e] w1].
  - match goal with |- context [body ?kp ?s1] =>
      destruct (Hbody kp s1) as (d & Hd); destruct (body kp s1) as [rb s2] end.
    cbn [trace snd] in Hd.
    exists (Some (next_session s)).
    destruct (kp_exit c _ _ (world s2)) as [rx w3].
    match goal with
    | |- exists rest, trace (match ?r with _ => _ end).2 = _ =>
        assert (Hr : exists r' : result unit,
                  r = (r', mkState (trace s2 ++ [KpExit (next_session s)])
                             (stdin s2) w3 (next_session s2)))
          by (destruct rx as [[]|e'], rb as [[]|e'']; eexists; reflexivity);
        destruct Hr as (r' & ->)
    end.
    destruct (Hhandle r' (mkState (trace s2 ++ [KpExit (next_session s)])
                            (stdin s2) w3 (next_session s2))
                ([KpOpen path with_gui (Some (next_session s))] ++ d
                 ++ [KpExit (next_session s)])) as (rest & Hrest).
    { cbn [trace]. rewrite Hd, <- !app_assoc. reflexivity. }
    exists (d ++ [KpExit (next_session s)] ++ rest).
    destruct r' as [[]|e']; rewrite Hrest, <- !app_assoc; reflexivity.
  - exists None.
    destruct (Hhandle (Raise e)
                (mkState (trace s ++ [KpOpen path with_gui None]) (stdin s) w1
                   (next_session s))
                [KpOpen path with_gui None] eq_refl) as (rest & Hrest).
    exists rest. exact Hrest.
Qed.

End Reports.

(** X3. When the lookup of [get_credentials_demo] fails with an
    [Exception], the handler leaves the session, prints one line and
    returns normally: the entry is reported as not found for a
    [ValueError], and as an error getting credentials for anything else. No
    user name or password line is printed. *)
Theorem get_credentials_reports_failure
    {W} (c : Collab W) (db_path entry_title : string) (with_gui : bool)
    (s : state W) (w1 w2 w3 : W) (e : exn) :
  kp_open c db_path with_gui (world s) = (Ret tt, w1) ->
  kp_get_credentials c (next_session s) entry_title w1 = (Raise e, w2) ->
  kp_exit c (next_session s) (Some e) w2 = (Ret false, w3) ->
  is_Exception e = true ->
  get_credentials_demo c db_path entry_title with_gui s
  = (Ret tt,
     mkState
       (trace s
        ++ [ Print ("Getting credentials for entry: '" +:+ entry_title
                    +:+ "' (using " +:+ input_method with_gui +:+ " input)");
             KpOpen db_path with_gui (Some (next_session s));
             KpCall (next_session s) (GetCredentials entry_title);
             KpExit (next_session s);
             Print ((if is_ValueError e then "❌ Entry not found: "
                     else "❌ Error getting credentials: ") +:+ exn_str e) ])
       (stdin s) w3 (S (next_session s))).
Proof.
  intros Hopen Hget Hexit He.
  unfold get_credentials_demo, bind at 1, print at 1, emit.
  match goal with
  | |- try_except (with_session _ _ _ ?body) ?h ?s0 = _ =>
      rewrite (handled_with_raised c h db_path with_gui body s0
                 (mkState (trace s0
                           ++ [KpOpen db_path with_gui (Some (next_session s));
                               KpCall (next_session s) (GetCredentials entry_title)])
                          (stdin s) w2 (S (next_session s)))
                 w1 w3 e Hopen)
  end.
  - unfold except_ValueError_Exception. rewrite He.
    destruct (is_ValueError e); unfold print, emit;
      cbn [trace stdin world next_session]; rewrite <- !app_assoc; reflexivity.
  - unfold call, bind, opened_state. cbn [trace stdin world next_session].
    rewrite Hget. rewrite <- !app_assoc. reflexivity.
  - exact Hexit.
Qed.

Lemma get_credentials_reports_failure_witness :
  get_credentials_demo (sample_collab true true) "x.kdbx" "Nowhere" false (start [])
  = (Ret tt,
     mkState
       (trace (start [])
        ++ [ Print ("Getting credentials for entry: '" +:+ "Nowhere"
                    +:+ "' (using " +:+ input_method false +:+ " input)");
             KpOpen "x.kdbx" false (Some (next_session (start [])));
             KpCall (next_session (start [])) (GetCredentials "Nowhere");
             KpExit (next_session (start []));
             Print ((if is_ValueError (ValueError "Entry 'Nowhere' not found")
                     then "❌ Entry not found: "
                     else "❌ Error getting credentials: ")
                    +:+ exn_str (ValueError "Entry 'Nowhere' not found")) ])
       (stdin (start [])) tt (S (next_session (start [])))).
Proof.
  exact (get_credentials_reports_failure (sample_collab true true) "x.kdbx"
           "Nowhere" false (start []) tt tt tt
           (ValueError "Entry 'Nowhere' not found") eq_refl eq_refl eq_refl eq_refl).
Defined.

(** X4. Whatever the collaborator, [autotype_demo] first announces itself,
    warns, and counts down from 5 to 1 with one second of sleep after each
    tick; only then does it try to open the database. *)
Theorem autotype_counts_down_first
    {W} (c : Collab W) (db_path entry_title : string) (with_gui : bool)
    (s : state W) :
  exists session rest,
    trace (autotype_demo c db_path entry_title with_gui s).2
    = trace s
      ++ [ Print ("Executing autotype sequence for entry: '" +:+ entry_title
                  +:+ "' (using " +:+ input_method with_gui +:+ " input)");
           Print "⚠️  Make sure the target application window is active!";
           PrintCR "⏱️  Starting autotype in 5 seconds..."; Sleep 1;
           PrintCR "⏱️  Starting autotype in 4 seconds..."; Sleep 1;
           PrintCR "⏱️  Starting autotype in 3 seconds..."; Sleep 1;
           PrintCR "⏱️  Starting autotype in 2 seconds..."; Sleep 1;
           PrintCR "⏱️  Starting autotype in 1 seconds..."; Sleep 1;
           Print (nl +:+ "🚀 Executing autotype sequence...");
           KpOpen db_path with_gui session ]
      ++ rest.
Proof.
  unfold autotype_demo, bind at 1 2 3 4, print at 1 2 3, emit.
  rewrite (countdown_trace 5). unfold logged.
  cbn [trace stdin world next_session].
  match goal with
  | |- context [try_except (with_session _ _ _ ?body) ?h ?s0] =>
      destruct (try_with_opens_first c h db_path with_gui body s0)
        as (session & rest & Htr)
  end.
  - intros kp s1. unfold bind, call, print, emit.
    destruct (kp_use_KeePass_sequence c kp entry_title (world s1)) as [[[]|e] w'];
      cbn [trace snd]; rewrite <- ?app_assoc; eexists; reflexivity.
  - apply appends_print_2.
  - exists session, rest. rewrite Htr. cbn [trace].
    rewrite <- !app_assoc. reflexivity.
Qed.

(** X5. A path that is empty once trimmed makes [gui_comparison_demo] say
    so and return: no database is opened. *)
Theorem comparison_skips_blank_path
    {W} (c : Collab W) (s : state W) (line : string) (rest : list key) :
  stdin s = Line line :: rest ->
  strip line = "" ->
  gui_comparison_demo c s
  = (Ret tt,
     mkState (trace s
              ++ [ Print (nl +:+ "🔄 GUI vs Console Input Comparison Demo");
                   Print (str_mul "=" 50);
                   Prompt "Enter path to KeePass database file for comparison: ";
                   Print "No database path provided. Skipping comparison demo." ])
             rest (world s) (next_session s)).
Proof.
  intros Hin Hblank. unfold gui_comparison_demo, bind at 1 2 3, print, emit, input.
  cbn [trace stdin world next_session]. rewrite Hin, Hblank.
  cbn [nonempty String.eqb negb trace stdin world next_session].
  rewrite <- !app_assoc. reflexivity.
Qed.

Lemma comparison_skips_blank_path_witness :
  gui_comparison_demo (sample_collab true true) (start [Line "   "; Line "6"])
  = (Ret tt,
     mkState (trace (start [Line "   "; Line "6"])
              ++ [ Print (nl +:+ "🔄 GUI vs Console Input Comparison Demo");
                   Print (str_mul "=" 50);
                   Prompt "Enter path to KeePass database file for comparison: ";
                   Print "No database path provided. Skipping comparison demo." ])
             [Line "6"] (world (start [Line "   "; Line "6"]))
             (next_session (start [Line "   "; Line "6"]))).
Proof.
  exact (comparison_skips_blank_path (sample_collab true true)
           (start [Line "   "; Line "6"]) "   " [Line "6"] eq_refl eq_refl).
Defined.

Section No_gui_pass.
Context {W : Type} (c : Collab W).

Lemma pass_event_no_gui (db_path : string) (e : event) :
  pass_event db_path false e -> no_gui_pass e.
Proof.
  destruct e as [t| | | | | |p g o| | |]; cbn; try tauto.
  - intros (n & ->). discriminate.
  - intros (_ & ->). exact I.
Qed.

Lemma console_pass_stops (db_path : string) (s : state W) :
  (forall kp exc w, (kp_exit c kp exc w).1 <> Ret true) ->
  exists events,
    trace (console_pass c db_path s).2 = trace s ++ events
    /\ Forall no_gui_pass events
    /\ (console_pass c db_path s).1 <> Ret true.
Proof.
  intros Hexit. unfold console_pass, try_except, bind.
  destruct (count_entries_raises c db_path false s Hexit) as (e & He).
  destruct (count_entries_events c db_path false s) as (events & Htr & Hev).
  destruct (count_entries c db_path false s) as [r s1]. cbn [fst snd] in *.
  subst r. unfold except_Exception.
  assert (Hev' : Forall no_gui_pass events)
    by (eapply Forall_impl; [exact Hev | apply pass_event_no_gui]).
  destruct (is_Exception e).
  - unfold print, emit, ret. cbn [trace fst snd].
    exists (events ++ [Print ("   ❌ Console input failed: " +:+ exn_str e)]).
    rewrite Htr, <- app_assoc. split; [reflexivity |].
    split; [| discriminate].
    apply Forall_app. split; [exact Hev' |]. constructor; [| constructor].
    cbn. discriminate.
  - exists events. cbn [fst snd]. split; [exact Htr |]. split; [exact Hev' |].
    discriminate.
Qed.

End No_gui_pass.

(** X6. With a collaborator whose [__exit__] swallows no exception,
    [gui_comparison_demo] never tries to open a database with graphical
    input and never prints that the comparison is complete, whatever is
    typed and whether or not the database opens: its first pass always ends
    in its [except] clause or in an exception that is passed on. *)
Theorem comparison_never_compares
    {W} (c : Collab W) (s : state W) :
  (forall kp exc w, (kp_exit c kp exc w).1 <> Ret true) ->
  exists events,
    trace (gui_comparison_demo c s).2 = trace s ++ events
    /\ Forall no_gui_pass events.
Proof.
  intros Hexit. unfold gui_comparison_demo, bind at 1 2 3, print at 1 2, emit, input.
  cbn [trace stdin world next_session].
  destruct (stdin s) as [|[line|] rest].
  - eexists. cbn [trace snd]. rewrite <- !app_assoc. split; [reflexivity |].
    repeat constructor; cbn; discriminate.
  - cbv zeta. destruct (negb (nonempty (strip line))).
    + unfold print, emit. eexists. cbn [trace snd]. rewrite <- !app_assoc.
      split; [reflexivity |]. repeat constructor; cbn; discriminate.
    + unfold try_except, bind at 1 2 3, print at 1 2, emit.
      cbn [trace stdin world next_session].
      match goal with |- context [console_pass c ?p ?s1] =>
        destruct (console_pass_stops c (strip line) s1 Hexit)
          as (events & Htr & Hev & Hres);
        destruct (console_pass c p s1) as [[go_on|e] s2] end;
        cbn [trace fst snd] in *.
      * destruct go_on; [contradiction Hres; reflexivity |].
        cbn [negb]. unfold ret. cbn [trace snd]. eexists.
        rewrite Htr, <- !app_assoc. split; [reflexivity |].
        repeat (apply Forall_cons; split; [cbn; try exact I; discriminate |]).
        exact Hev.
      * unfold except_Exception. destruct (is_Exception e); unfold print, emit;
          cbn [trace snd]; eexists; rewrite Htr, <- !app_assoc;
          (split; [reflexivity |]);
          repeat (apply Forall_cons; split; [cbn; try exact I; discriminate |]).
        -- apply Forall_app. split; [exact Hev |].
           constructor; [cbn; discriminate | constructor].
        -- exact Hev.
  - eexists. cbn [trace snd]. rewrite <- !app_assoc. split; [reflexivity |].
    repeat constructor; cbn; discriminate.
Qed.

Lemma comparison_never_compares_witness :
  exists events,
    trace (gui_comparison_demo (sample_collab true true)
             (start [Line "db.kdbx"])).2
    = trace (start [Line "db.kdbx"]) ++ events
    /\ Forall no_gui_pass events.
Proof.
  apply (comparison_never_compares (sample_collab true true)
           (start [Line "db.kdbx"])).
  intros kp exc w. cbn. discriminate.
Defined.

(** ** More on the removal of duplicates *)

Lemma dict_set_fresh {V} (k : N) (v : V) (d : list (N * V)) :
  k ∉ d.*1 -> dict_set k v d = d ++ [(k, v)].
Proof.
  induction d as [|[k' v'] d IH]; intros Hk; cbn [dict_set app]; [reflexivity |].
  rewrite fmap_cons in Hk. cbn [fst] in Hk. apply not_elem_of_cons in Hk as [Hne Hk].
  destruct (N.eqb_spec k k') as [-> | _]; [contradiction |].
  rewrite (IH Hk). reflexivity.
Qed.

Lemma dict_by_uuid_fresh_from (entries : list Entry) (d : list (N * Entry)) :
  NoDup (d.*1 ++ (uuid <$> entries)) ->
  fold_left (fun d entry => dict_set (uuid entry) entry d) entries d
  = d ++ ((fun e => (uuid e, e)) <$> entries).
Proof.
  revert d. induction entries as [|e entries IH]; intros d Hnd;
    cbn [fold_left fmap list_fmap].
  - rewrite app_nil_r. reflexivity.
  - rewrite fmap_cons in Hnd.
    assert (Hfresh : uuid e ∉ d.*1).
    { apply NoDup_app in Hnd as (_ & Hdis & _). intros Hin.
      apply (Hdis _ Hin). left. }
    rewrite (dict_set_fresh _ _ _ Hfresh), IH.
    + rewrite <- app_assoc. reflexivity.
    + rewrite fmap_app. cbn [fmap list_fmap fst]. rewrite <- app_assoc. exact Hnd.
Qed.

(** X7. When no two entries of the search result share an identity key the
    list is kept as it is, entry for entry and in the same order; so
    removing duplicates a second time changes nothing. *)
Theorem unique_by_uuid_keeps_distinct (entries : list Entry) :
  (NoDup (uuid <$> entries) -> unique_by_uuid entries = entries)
  /\ unique_by_uuid (unique_by_uuid entries) = unique_by_uuid entries.
Proof.
  assert (Hkeep : forall l, NoDup (uuid <$> l) -> unique_by_uuid l = l).
  { intros l Hnd. unfold unique_by_uuid, dict_by_uuid.
    rewrite (dict_by_uuid_fresh_from l []) by exact Hnd.
    cbn [app]. rewrite <- list_fmap_compose. apply list_fmap_id. }
  split; [apply Hkeep |].
  apply Hkeep. rewrite unique_by_uuid_keys. apply first_seen_NoDup.
Qed.

Lemma unique_by_uuid_keeps_distinct_witness :
  unique_by_uuid sample_entries = sample_entries
  /\ unique_by_uuid (unique_by_uuid (sample_search "i" 10))
     = unique_by_uuid (sample_search "i" 10).
Proof.
  split.
  - apply (proj1 (unique_by_uuid_keeps_distinct sample_entries)).
    cbn. repeat constructor; rewrite ?elem_of_cons, ?elem_of_nil; intuition discriminate.
  - apply (proj2 (unique_by_uuid_keeps_distinct (sample_search "i" 10))).
Defined.

Lemma first_seen_length (keys : list N) : length (first_seen keys) <= length keys.
Proof.
  induction keys as [|k keys IH]; cbn [first_seen length]; [lia |].
  pose proof (length_filter (fun k' => k' <> k) (first_seen keys)). lia.
Qed.

(** X8. Removing duplicates never makes the list longer, and leaves it empty
    only if it was: the test [not unique_entries] of the handler holds
    exactly when the collaborator returned no entry. *)
Theorem unique_by_uuid_size (entries : list Entry) :
  length (unique_by_uuid entries) <= length entries
  /\ (unique_by_uuid entries = [] <-> entries = []).
Proof.
  pose proof (unique_by_uuid_keys entries) as Hkeys.
  split.
  - pose proof (first_seen_length (uuid <$> entries)) as H.
    rewrite <- Hkeys, !length_fmap in H. exact H.
  - split.
    + intros Hnil. rewrite Hnil in Hkeys. destruct entries as [|e l]; [reflexivity |].
      discriminate Hkeys.
    + intros ->. reflexivity.
Qed.

Lemma unique_by_uuid_size_witness :
  length (unique_by_uuid (sample_search "i" 10)) <= length (sample_search "i" 10)
  /\ unique_by_uuid (sample_search "zzz" 10) = [].
Proof.
  split.
  - exact (proj1 (unique_by_uuid_size (sample_search "i" 10))).
  - exact (proj2 (proj2 (unique_by_uuid_size (sample_search "zzz" 10))) eq_refl).
Defined.

(** ** The attributes of the parsed arguments *)

Lemma kind_of_defined (name : string) :
  is_Some (kind_of name) <-> name ∈ dest <$> parser_arguments.
Proof.
  unfold kind_of. split.
  - intros [k Hk]. destruct (List.find _ parser_arguments) as [a|] eqn:E;
      [| discriminate].
    apply find_some in E as [Hin Hd]. apply bool_decide_eq_true in Hd.
    rewrite <- Hd. apply list_elem_of_fmap. exists a. split; [reflexivity |].
    apply list_elem_of_In. exact Hin.
  - intros Hin. apply list_elem_of_fmap in Hin as (a & -> & Ha).
    destruct (List.find (fun a0 => bool_decide (dest a0 = dest a)) parser_arguments)
      as [a'|] eqn:E; [eexists; reflexivity |].
    exfalso. pose proof (find_none _ _ E a (proj1 (list_elem_of_In _ _) Ha)) as H.
    cbv beta in H. rewrite bool_decide_eq_true_2 in H by reflexivity.
    discriminate H.
Qed.

(** X9. Whatever the command line, the arguments [parse_args] returns have
    the nine attributes of the [add_argument] calls and no other. *)
Theorem parsed_attributes (tokens : list string) (args : gmap string pyval) :
  parse_tokens tokens defaults = Parsed args ->
  dom args
  = list_to_set ["db"; "gui"; "entry"; "search"; "get_credentials";
                 "get_full_entry"; "autotype"; "interactive"; "verbose"].
Proof.
  intros Hparse.
  pose proof (parse_tokens_ok _ _ _ Namespace_ok_defaults Hparse) as Hns.
  apply set_eq. intros name. rewrite elem_of_dom, elem_of_list_to_set.
  change ["db"; "gui"; "entry"; "search"; "get_credentials"; "get_full_entry";
          "autotype"; "interactive"; "verbose"]
    with (dest <$> parser_arguments).
  rewrite <- kind_of_defined. specialize (Hns name).
  destruct (kind_of name), (args !! name); split; intros [x Hx];
    try contradiction; try discriminate; eexists; reflexivity.
Qed.

Lemma parsed_attributes_witness :
  dom (<["gui" := VBool true]>
         (<["interactive" := VBool true]> (<["db" := VStr "other.kdbx"]> defaults)))
  = list_to_set ["db"; "gui"; "entry"; "search"; "get_credentials";
                 "get_full_entry"; "autotype"; "interactive"; "verbose"].
Proof.
  apply (parsed_attributes ["--db"; "other.kdbx"; "--interactive"; "--gui"]).
  vm_compute. reflexivity.
Defined.

(** ** The single-shot handlers and the input *)

Section Reads_nothing.
Context {W : Type} (c : Collab W).

Lemma reads_nothing_with (path : string) (with_gui : bool) (body : nat -> M W unit) :
  (forall kp, respects reads_nothing (body kp)) ->
  respects reads_nothing (with_session c path with_gui body).
Proof.
  intros Hbody s. unfold reads_nothing, with_session, open_session, exit_session.
  destruct (kp_open c path with_gui (world s)) as [[[]|e] w1];
    cbn [stdin snd]; [| reflexivity].
  match goal with |- context [body ?kp ?s1] =>
    pose proof (Hbody kp s1) as H; unfold reads_nothing in H;
    destruct (body kp s1) as [rb s2] end.
  cbn [stdin snd] in *.
  destruct (kp_exit c _ _ (world s2)) as [[b|e] w3], rb as [[]|e'];
    try destruct b; cbn [stdin snd]; exact H.
Qed.

Lemma reads_nothing_trans (s1 s2 s3 : state W) :
  reads_nothing s1 s2 -> reads_nothing s2 s3 -> reads_nothing s1 s3.
Proof. unfold reads_nothing. congruence. Qed.

Lemma reads_nothing_emit (e : event) :
  is_collaborator_call e = false -> respects (W := W) reads_nothing (emit e).
Proof. intros _ s. reflexivity. Qed.

Lemma reads_nothing_call A (kp : nat) (what : kp_call) (op : W -> result A * W) :
  respects reads_nothing (call kp what op).
Proof. intros s. unfold reads_nothing, call. destruct (op (world s)). reflexivity. Qed.

End Reads_nothing.

(** X10. The four single-shot handlers never read from the input: whatever
    they do and however they end, the input is left as it was. *)
Theorem handlers_read_nothing
    {W} (c : Collab W) (db_path target : string) (with_gui : bool) (s : state W) :
  stdin (get_credentials_demo c db_path target with_gui s).2 = stdin s
  /\ stdin (get_full_entry_demo c db_path target with_gui s).2 = stdin s
  /\ stdin (autotype_demo c db_path target with_gui s).2 = stdin s
  /\ stdin (search_entries_demo c db_path target with_gui s).2 = stdin s.
Proof.
  assert (Hrefl : forall s0 : state W, reads_nothing s0 s0) by reflexivity.
  refine (conj _ (conj _ (conj _ _))).
  - apply (respects_get_credentials_demo c reads_nothing reads_nothing_trans
             reads_nothing_emit reads_nothing_call (reads_nothing_with c)).
  - apply (respects_get_full_entry_demo c reads_nothing Hrefl reads_nothing_trans
             reads_nothing_emit reads_nothing_call (reads_nothing_with c)).
  - apply (respects_autotype_demo c reads_nothing Hrefl reads_nothing_trans
             reads_nothing_emit reads_nothing_call (reads_nothing_with c)).
  - apply (respects_search_entries_demo c reads_nothing Hrefl reads_nothing_trans
             reads_nothing_emit reads_nothing_call (reads_nothing_with c)).
Qed.

(** ** The menu of interactive mode *)

Section Menu.
Context {W : Type} (c : Collab W).

Lemma bind_input_line {A} (text line : string) (rest : list key)
    (k : string -> M W A) (s : state W) :
  stdin s = Line line :: rest ->
  bind (input text) k s
  = k line (mkState (trace s ++ [Prompt text]) rest (world s) (next_session s)).
Proof. intros Hin. unfold bind, input. rewrite Hin. reflexivity. Qed.

Lemma bind_input_eof {A} (text : string) (k : string -> M W A) (s : state W) :
  stdin s = [] ->
  bind (input text) k s
  = (Raise (EOFError "EOF when reading a line"),
     mkState (trace s ++ [Prompt text]) [] (world s) (next_session s)).
Proof. intros Hin. unfold bind, input. rewrite Hin. reflexivity. Qed.

Lemma interactive_round_line (kp : nat) (s : state W) (line : string)
    (rest : list key) :
  stdin s = Line line :: rest ->
  interactive_round c kp s
  = interactive_action c kp (strip line)
      (mkState (trace s ++ menu_events) rest (world s) (next_session s)).
Proof.
  intros Hin. unfold interactive_round. rewrite !bind_print.
  rewrite (bind_input_line _ line rest) by exact Hin.
  unfold printed, menu_events. cbn [trace stdin world next_session].
  rewrite <- !app_assoc. reflexivity.
Qed.

Lemma interactive_round_eof (kp : nat) (s : state W) :
  stdin s = [] ->
  interactive_round c kp s
  = (Raise (EOFError "EOF when reading a line"),
     mkState (trace s ++ menu_events) [] (world s) (next_session s)).
Proof.
  intros Hin. unfold interactive_round. rewrite !bind_print.
  rewrite bind_input_eof by exact Hin.
  unfold printed, menu_events. cbn [trace stdin world next_session].
  rewrite <- !app_assoc. reflexivity.
Qed.

Lemma interactive_action_invalid (kp : nat) (line : string) (s : state W) :
  invalid_choice line ->
  interactive_action c kp (strip line) s
  = (Ret true, printed s "Invalid choice. Please enter 1-6.").
Proof.
  unfold invalid_choice. rewrite !not_elem_of_cons.
  intros (H1 & H2 & H3 & H4 & H5 & H6 & _). unfold interactive_action.
  rewrite (proj2 (String.eqb_neq _ _) H1), (proj2 (String.eqb_neq _ _) H2),
    (proj2 (String.eqb_neq _ _) H3), (proj2 (String.eqb_neq _ _) H4),
    (proj2 (String.eqb_neq _ _) H5), (proj2 (String.eqb_neq _ _) H6).
  reflexivity.
Qed.

Lemma interactive_action_exit (kp : nat) (s : state W) :
  interactive_action c kp "6" s
  = (Ret false, printed s "Exiting interactive mode...").
Proof. reflexivity. Qed.

(** The events of passes of the menu answered by the invalid [lines]. *)
Lemma interactive_loop_invalid_then_exit (kp : nat) (lines : list string)
    (six : string) (rest : list key) (fuel : nat) (s : state W) :
  length lines < fuel ->
  stdin s = (Line <$> lines) ++ Line six :: rest ->
  Forall invalid_choice lines ->
  strip six = "6" ->
  interactive_loop c fuel kp s
  = (Ret tt,
     mkState (trace s
              ++ concat ((fun _ => menu_events
                                   ++ [Print "Invalid choice. Please enter 1-6."])
                           <$> lines)
              ++ menu_events ++ [Print "Exiting interactive mode..."])
             rest (world s) (next_session s)).
Proof.
  revert fuel s. induction lines as [|line lines IH]; intros fuel s Hfuel Hin Hinv Hsix;
    (destruct fuel as [|fuel]; [cbn [length] in Hfuel; lia |]);
    cbn [interactive_loop]; unfold bind.
  - cbn [fmap list_fmap app] in Hin.
    rewrite (interactive_round_line kp s six rest Hin), Hsix, interactive_action_exit.
    unfold printed, ret. cbn [trace stdin world next_session fmap list_fmap concat app].
    rewrite <- !app_assoc. reflexivity.
  - cbn [fmap list_fmap app] in Hin. apply Forall_cons in Hinv as [Hline Hinv].
    rewrite (interactive_round_line kp s line _ Hin),
      (interactive_action_invalid kp line _ Hline).
    rewrite (IH fuel); [| cbn [length] in Hfuel; lia | reflexivity | exact Hinv | exact Hsix].
    unfold printed. cbn [trace stdin world next_session fmap list_fmap concat].
    rewrite <- !app_assoc. reflexivity.
Qed.

Lemma interactive_loop_invalid_then_eof (kp : nat) (lines : list string)
    (fuel : nat) (s : state W) :
  length lines < fuel ->
  stdin s = Line <$> lines ->
  Forall invalid_choice lines ->
  interactive_loop c fuel kp s
  = (Raise (EOFError "EOF when reading a line"),
     mkState (trace s
              ++ concat ((fun _ => menu_events
                                   ++ [Print "Invalid choice. Please enter 1-6."])
                           <$> lines)
              ++ menu_events)
             [] (world s) (next_session s)).
Proof.
  revert fuel s. induction lines as [|line lines IH]; intros fuel s Hfuel Hin Hinv;
    (destruct fuel as [|fuel]; [cbn [length] in Hfuel; lia |]);
    cbn [interactive_loop]; unfold bind.
  - cbn [fmap list_fmap] in Hin. rewrite (interactive_round_eof kp s Hin).
    reflexivity.
  - cbn [fmap list_fmap] in Hin. apply Forall_cons in Hinv as [Hline Hinv].
    rewrite (interactive_round_line kp s line _ Hin),
      (interactive_action_invalid kp line _ Hline).
    rewrite (IH fuel); [| cbn [length] in Hfuel; lia | reflexivity | exact Hinv].
    unfold printed. cbn [trace stdin world next_session fmap list_fmap concat].
    rewrite <- !app_assoc. reflexivity.
Qed.

Lemma interactive_mode_opened (with_gui : bool) (s : state W) (w1 : W) :
  kp_open c interactive_db_path with_gui (world s) = (Ret tt, w1) ->
  interactive_mode c with_gui s
  = let s0 := printed s (nl +:+ "=== KeePass Interactive Mode (using "
                         +:+ input_method with_gui +:+ " input) ===") in
    let s1 := opened_state interactive_db_path with_gui w1 s0 in
    let '(rb, s2) := interactive_loop c (S (length (stdin s))) (next_session s) s1 in
    match exit_session c (next_session s) rb s2 with
    | (Ret a, s3) => (Ret a, s3)
    | (Raise e, s3) =>
        if is_Exception e
        then print ("Error in interactive mode: " +:+ exn_str e) s3
        else (Raise e, s3)
    end.
Proof.
  intros Hopen. unfold interactive_mode. rewrite bind_print.
  change (negb (nonempty interactive_db_path)) with false. cbv iota zeta.
  unfold try_except, with_session, open_session, printed.
  cbn [trace stdin world next_session]. rewrite Hopen.
  unfold opened_state, bind at 1, passes_needed.
  cbn [trace stdin world next_session].
  destruct (interactive_loop c _ _ _) as [rb s2].
  destruct (exit_session c (next_session s) rb s2) as [[[]|e] s3]; [reflexivity |].
  unfold except_Exception. destruct (is_Exception e); reflexivity.
Qed.

End Menu.

(** X11. In interactive mode, answers that are none of the six choices are
    each told to be invalid and the menu is shown again; the answer [6]
    then ends the loop. The session opened at the start is left once the
    loop is over, no method of it has been called, and the input that
    follows the [6] is left unread. *)
Theorem interactive_mode_invalid_then_exit
    {W} (c : Collab W) (with_gui : bool) (s : state W) (lines : list string)
    (six : string) (rest : list key) (w1 w3 : W) (b : bool) :
  stdin s = (Line <$> lines) ++ Line six :: rest ->
  Forall invalid_choice lines ->
  strip six = "6" ->
  kp_open c "~\Losenordslista_SD_Personlig.kdbx" with_gui (world s) = (Ret tt, w1) ->
  kp_exit c (next_session s) None w1 = (Ret b, w3) ->
  interactive_mode c with_gui s
  = (Ret tt,
     mkState (trace s
              ++ [ Print (nl +:+ "=== KeePass Interactive Mode (using "
                          +:+ input_method with_gui +:+ " input) ===");
                   KpOpen "~\Losenordslista_SD_Personlig.kdbx" with_gui
                     (Some (next_session s)) ]
              ++ concat ((fun _ => menu_events
                                   ++ [Print "Invalid choice. Please enter 1-6."])
                           <$> lines)
              ++ menu_events
              ++ [ Print "Exiting interactive mode...";
                   KpExit (next_session s) ])
             rest w3 (S (next_session s))).
Proof.
  intros Hin Hinv Hsix Hopen Hexit.
  rewrite (interactive_mode_opened c with_gui s w1 Hopen). cbv zeta.
  rewrite (interactive_loop_invalid_then_exit c (next_session s) lines six rest);
    [| rewrite Hin, length_app, length_fmap; cbn [length]; lia
     | exact Hin | exact Hinv | exact Hsix].
  unfold exit_session, opened_state, printed.
  cbn [trace stdin world next_session]. rewrite Hexit.
  rewrite <- !app_assoc. reflexivity.
Qed.

Lemma interactive_mode_invalid_then_exit_witness :
  interactive_mode (sample_collab true true) false
    (start [Line "9"; Line "help"; Line " 6 "; Line "left"])
  = (Ret tt,
     mkState (trace (start [Line "9"; Line "help"; Line " 6 "; Line "left"])
              ++ [ Print (nl +:+ "=== KeePass Interactive Mode (using "
                          +:+ input_method false +:+ " input) ===");
                   KpOpen "~\Losenordslista_SD_Personlig.kdbx" false
                     (Some (next_session
                              (start [Line "9"; Line "help"; Line " 6 "; Line "left"]))) ]
              ++ concat ((fun _ => menu_events
                                   ++ [Print "Invalid choice. Please enter 1-6."])
                           <$> ["9"; "help"])
              ++ menu_events
              ++ [ Print "Exiting interactive mode...";
                   KpExit (next_session
                             (start [Line "9"; Line "help"; Line " 6 "; Line "left"])) ])
             [Line "left"] tt
             (S (next_session (start [Line "9"; Line "help"; Line " 6 "; Line "left"])))).
Proof.
  apply (interactive_mode_invalid_then_exit (sample_collab true true) false
           (start [Line "9"; Line "help"; Line " 6 "; Line "left"])
           ["9"; "help"] " 6 " [Line "left"] tt tt false eq_refl).
  - repeat (apply List.Forall_cons;
              [unfold invalid_choice; apply (bool_decide_eq_true_1 _);
               vm_compute; reflexivity |]).
    apply List.Forall_nil.
  - reflexivity.
  - reflexivity.
  - reflexivity.
Defined.

(** X12. When the input of interactive mode runs out at the menu (after any
    number of invalid answers), [input] raises [EOFError]: the session is
    left, then the error is printed as an error in interactive mode, and
    the function returns normally. *)
Theorem interactive_mode_end_of_input
    {W} (c : Collab W) (with_gui : bool) (s : state W) (lines : list string)
    (w1 w3 : W) :
  stdin s = Line <$> lines ->
  Forall invalid_choice lines ->
  kp_open c "~\Losenordslista_SD_Personlig.kdbx" with_gui (world s) = (Ret tt, w1) ->
  kp_exit c (next_session s) (Some (EOFError "EOF when reading a line")) w1
  = (Ret false, w3) ->
  interactive_mode c with_gui s
  = (Ret tt,
     mkState (trace s
              ++ [ Print (nl +:+ "=== KeePass Interactive Mode (using "
                          +:+ input_method with_gui +:+ " input) ===");
                   KpOpen "~\Losenordslista_SD_Personlig.kdbx" with_gui
                     (Some (next_session s)) ]
              ++ concat ((fun _ => menu_events
                                   ++ [Print "Invalid choice. Please enter 1-6."])
                           <$> lines)
              ++ menu_events
              ++ [ KpExit (next_session s);
                   Print "Error in interactive mode: EOF when reading a line" ])
             [] w3 (S (next_session s))).
Proof.
  intros Hin Hinv Hopen Hexit.
  rewrite (interactive_mode_opened c with_gui s w1 Hopen). cbv zeta.
  rewrite (interactive_loop_invalid_then_eof c (next_session s) lines);
    [| rewrite Hin, length_fmap; lia | exact Hin | exact Hinv].
  unfold exit_session, opened_state, printed.
  cbn [trace stdin world next_session]. rewrite Hexit.
  cbn [is_Exception]. unfold print, emit. cbn [trace stdin world next_session exn_str].
  rewrite <- !app_assoc. reflexivity.
Qed.

Lemma interactive_mode_end_of_input_witness :
  interactive_mode (sample_collab true true) true (start [])
  = (Ret tt,
     mkState (trace (start [])
              ++ [ Print (nl +:+ "=== KeePass Interactive Mode (using "
                          +:+ input_method true +:+ " input) ===");
                   KpOpen "~\Losenordslista_SD_Personlig.kdbx" true
                     (Some (next_session (start []))) ]
              ++ concat ((fun _ => menu_events
                                   ++ [Print "Invalid choice. Please enter 1-6."])
                           <$> ([] : list string))
              ++ menu_events
              ++ [ KpExit (next_session (start []));
                   Print "Error in interactive mode: EOF when reading a line" ])
             [] tt (S (next_session (start [])))).
Proof.
  exact (interactive_mode_end_of_input (sample_collab true true) true (start []) []
           tt tt eq_refl (List.Forall_nil _) eq_refl eq_refl).
Defined.

Ltac eval_choice :=
  repeat match goal with
         | |- context [String.eqb ?a ?b] =>
             let v := eval vm_compute in (String.eqb a b) in
             change (String.eqb a b) with v
         end;
  cbv iota.

Lemma nonempty_blank : nonempty "" = false.
Proof. reflexivity. Qed.

(** X13. In the menu, a search term or an entry title that is empty once
    trimmed makes choices 1 to 4 do nothing: the line is read, no method of
    the session is called, nothing is printed, and the menu comes back. *)
Theorem menu_ignores_blank_input
    {W} (c : Collab W) (kp : nat) (choice line : string) (rest : list key)
    (s : state W) :
  choice ∈ ["1"; "2"; "3"; "4"] ->
  stdin s = Line line :: rest ->
  strip line = "" ->
  exists prompt,
    interactive_action c kp choice s
    = (Ret true,
       mkState (trace s ++ [Prompt prompt]) rest (world s) (next_session s)).
Proof.
  intros Hchoice Hin Hblank.
  rewrite !elem_of_cons, elem_of_nil in Hchoice.
  destruct Hchoice as [-> | [-> | [-> | [-> | []]]]];
    unfold interactive_action; eval_choice;
    rewrite (bind_input_line _ line rest) by exact Hin; cbv zeta;
    rewrite Hblank, nonempty_blank; eexists; reflexivity.
Qed.

Lemma menu_ignores_blank_input_witness :
  exists prompt,
    interactive_action (sample_collab true true) 0 "2" (start [Line "  "; Line "6"])
    = (Ret true,
       mkState (trace (start [Line "  "; Line "6"]) ++ [Prompt prompt]) [Line "6"]
         (world (start [Line "  "; Line "6"]))
         (next_session (start [Line "  "; Line "6"]))).
Proof.
  apply (menu_ignores_blank_input (sample_collab true true) 0 "2" "  " [Line "6"]
           (start [Line "  "; Line "6"])).
  - rewrite !elem_of_cons. right. left. reflexivity.
  - reflexivity.
  - reflexivity.
Defined.

(** X14. In the menu, a lookup of credentials (choice 2) that fails with
    [ValueError] is reported and the menu comes back, but any other
    exception leaves the loop: only [ValueError] is caught there. Under
    choice 4 every [Exception] of the autotype call is reported and the
    menu comes back. *)
Theorem menu_lookup_failures
    {W} (c : Collab W) (kp : nat) (line : string) (s : state W) (w2 : W) (e : exn) :
  (forall rest,
     stdin s = Line line :: rest ->
     nonempty (strip line) = true ->
     kp_get_credentials c kp (strip line) (world s) = (Raise e, w2) ->
     interactive_action c kp "2" s
     = if is_ValueError e
       then (Ret true,
             mkState (trace s
                      ++ [ Prompt "Enter entry title: ";
                           KpCall kp (GetCredentials (strip line));
                           Print ("Error: " +:+ exn_str e) ])
                     rest w2 (next_session s))
       else (Raise e,
             mkState (trace s
                      ++ [ Prompt "Enter entry title: ";
                           KpCall kp (GetCredentials (strip line)) ])
                     rest w2 (next_session s)))
  /\ (forall ready rest,
        stdin s = Line line :: Line ready :: rest ->
        nonempty (strip line) = true ->
        kp_use_KeePass_sequence c kp (strip line) (world s) = (Raise e, w2) ->
        is_Exception e = true ->
        interactive_action c kp "4" s
        = (Ret true,
           mkState (trace s
                    ++ [ Prompt "Enter entry title for autotype: ";
                         Print "Make sure the target window is active!";
                         Prompt "Press Enter when ready...";
                         KpCall kp (UseKeePassSequence (strip line));
                         Print ((if is_ValueError e then "Error: "
                                 else "Error executing autotype: ") +:+ exn_str e) ])
                   rest w2 (next_session s))).
Proof.
  split.
  - intros rest Hin Hne Hget. unfold interactive_action. eval_choice.
    rewrite (bind_input_line _ line rest) by exact Hin. cbv zeta.
    rewrite Hne. unfold bind at 1, try_except, bind at 1, call.
    cbn [trace stdin world next_session]. rewrite Hget.
    unfold except_ValueError. destruct (is_ValueError e);
      unfold print, emit, ret; cbn [trace stdin world next_session];
      rewrite <- ?app_assoc; reflexivity.
  - intros ready rest Hin Hne Huse He. unfold interactive_action. eval_choice.
    rewrite (bind_input_line _ line (Line ready :: rest)) by exact Hin. cbv zeta.
    rewrite Hne. unfold bind at 1. rewrite bind_print.
    rewrite (bind_input_line _ ready rest) by reflexivity.
    unfold try_except, bind at 1, call.
    cbn [trace stdin world next_session printed]. rewrite Huse.
    unfold except_ValueError_Exception. rewrite He.
    destruct (is_ValueError e); unfold print, emit, ret;
      cbn [trace stdin world next_session]; rewrite <- !app_assoc; reflexivity.
Qed.

Lemma menu_lookup_failures_witness :
  interactive_action (sample_collab true true) 0 "2" (start [Line "Nowhere"])
  = (if is_ValueError (ValueError "Entry 'Nowhere' not found")
     then (Ret true,
           mkState (trace (start [Line "Nowhere"])
                    ++ [ Prompt "Enter entry title: ";
                         KpCall 0 (GetCredentials (strip "Nowhere"));
                         Print ("Error: "
                                +:+ exn_str (ValueError "Entry 'Nowhere' not found")) ])
                   [] tt (next_session (start [Line "Nowhere"])))
     else (Raise (ValueError "Entry 'Nowhere' not found"),
           mkState (trace (start [Line "Nowhere"])
                    ++ [ Prompt "Enter entry title: ";
                         KpCall 0 (GetCredentials (strip "Nowhere")) ])
                   [] tt (next_session (start [Line "Nowhere"]))))
  /\ interactive_action (sample_collab true true) 0 "4"
       (start [Line "Nowhere"; Line ""])
     = (Ret true,
        mkState (trace (start [Line "Nowhere"; Line ""])
                 ++ [ Prompt "Enter entry title for autotype: ";
                      Print "Make sure the target window is active!";
                      Prompt "Press Enter when ready...";
                      KpCall 0 (UseKeePassSequence (strip "Nowhere"));
                      Print ((if is_ValueError (ValueError "Entry 'Nowhere' not found")
                              then "Error: " else "Error executing autotype: ")
                             +:+ exn_str (ValueError "Entry 'Nowhere' not found")) ])
                [] tt (next_session (start [Line "Nowhere"; Line ""]))).
Proof.
  split.
  - exact (proj1 (menu_lookup_failures (sample_collab true true) 0 "Nowhere"
                    (start [Line "Nowhere"]) tt
                    (ValueError "Entry 'Nowhere' not found"))
             [] eq_refl eq_refl eq_refl).
  - exact (proj2 (menu_lookup_failures (sample_collab true true) 0 "Nowhere"
                    (start [Line "Nowhere"; Line ""]) tt
                    (ValueError "Entry 'Nowhere' not found"))
             "" [] eq_refl eq_refl eq_refl eq_refl).
Defined.

(** ** The dispatch of [main] and the start of the script *)


(** X16. In that dispatch, an action on an entry without [--entry] (absent
    or empty) prints that [--entry] is required for the action and leaves
    with status 1: the [SystemExit] raised inside the [try] is not caught
    by its [except Exception], and no session is opened. The actions are
    tried in the order search, get-credentials, get-full-entry, autotype. *)
Theorem dispatch_requires_entry
    {W} (c : Collab W) (tokens : list string) (args : gmap string pyval)
    (db_path : pyval) (s : state W) :
  parse_tokens tokens defaults = Parsed args ->
  flag args "search" = false ->
  flag args "entry" = false ->
  (flag args "get_credentials" = true ->
   dispatch c args db_path s
   = (Raise (SystemExit 1),
      printed s "Error: --entry is required for --get-credentials"))
  /\ (flag args "get_credentials" = false ->
      flag args "get_full_entry" = true ->
      dispatch c args db_path s
      = (Raise (SystemExit 1),
         printed s "Error: --entry is required for --get-full-entry"))
  /\ (flag args "get_credentials" = false ->
      flag args "get_full_entry" = false ->
      flag args "autotype" = true ->
      dispatch c args db_path s
      = (Raise (SystemExit 1),
         printed s "Error: --entry is required for --autotype")).
Proof.
  intros Hparse Hsearch Hentry.
  pose proof (parse_tokens_ok _ _ _ Namespace_ok_defaults Hparse) as Hns.
  destruct (Namespace_ok_store args "search" Hns eq_refl) as (vs & Hvs & Hts).
  destruct (Namespace_ok_store args "entry" Hns eq_refl) as (ve & Hve & Hte).
  pose proof (Namespace_ok_store_true args "get_credentials" Hns eq_refl) as H1.
  pose proof (Namespace_ok_store_true args "get_full_entry" Hns eq_refl) as H2.
  pose proof (Namespace_ok_store_true args "autotype" Hns eq_refl) as H3.
  unfold dispatch, try_except.
  rewrite (getattr_defined _ _ _ Hvs), (getattr_defined _ _ _ Hve),
    (getattr_defined _ _ _ H1), (getattr_defined _ _ _ H2),
    (getattr_defined _ _ _ H3).
  cbn [bind ret]. rewrite Hts, Hsearch. cbn [truthy].
  refine (conj _ (conj _ _)).
  - intros ->. cbn [bind ret truthy]. rewrite Hte, Hentry. reflexivity.
  - intros -> ->. cbn [bind ret truthy]. rewrite Hte, Hentry. reflexivity.
  - intros -> -> ->. cbn [bind ret truthy]. rewrite Hte, Hentry. reflexivity.
Qed.

Lemma dispatch_requires_entry_witness :
  parse_tokens ["--db"; "x.kdbx"; "--get-full-entry"] defaults
  = Parsed sample_full_entry_args
  /\ dispatch (sample_collab true true) sample_full_entry_args (VStr "x.kdbx")
       (start [])
     = (Raise (SystemExit 1),
        printed (start []) "Error: --entry is required for --get-full-entry").
Proof.
  assert (Hparse : parse_tokens ["--db"; "x.kdbx"; "--get-full-entry"] defaults
                   = Parsed sample_full_entry_args)
    by (vm_compute; reflexivity).
  split; [exact Hparse |].
  assert (Hsearch : flag sample_full_entry_args "search" = false)
    by (vm_compute; reflexivity).
  assert (Hentry : flag sample_full_entry_args "entry" = false)
    by (vm_compute; reflexivity).
  apply (proj1 (proj2 (dispatch_requires_entry (sample_collab true true)
                         ["--db"; "x.kdbx"; "--get-full-entry"]
                         sample_full_entry_args (VStr "x.kdbx") (start []) Hparse
                         Hsearch Hentry))); vm_compute; reflexivity.
Defined.

Lemma bind_print_logged {W A} (text : string) (m : M W A) (s : state W)
    (events : list event) :
  bind (print text) (fun _ => m) (logged s events)
  = m (logged s (events ++ [Print text])).
Proof.
  unfold bind, print, emit, logged. cbn [trace stdin world next_session].
  rewrite <- app_assoc. reflexivity.
Qed.

(** X17. Started without any argument, the script shows its examples and
    asks whether to start interactive mode; on any answer that, trimmed and
    in lower case, is neither [y] nor [yes] it points to [--help] and
    leaves with status 0, having opened no database and asked nothing
    else. *)
Theorem no_argument_declined
    {W} (c : Collab W) (prog line : string) (rest : list key) (s : state W) :
  stdin s = Line line :: rest ->
  yes (lower (strip line)) = false ->
  demo_py c [prog] s
  = (Raise (SystemExit 0),
     mkState
       (trace s
        ++ [ Print "🔐 KeePass Functions Demo Script";
             Print (str_mul "=" 40);
             Print "No arguments provided. Here are some quick examples:";
             Print (nl +:+ "Quick start options:");
             Print "  python demo.py --interactive           # Interactive mode with console input";
             Print "  python demo.py --interactive --gui     # Interactive mode with GUI input";
             Print "  python demo.py --help                  # Show all options";
             Print (nl +:+ "For GUI vs Console comparison:");
             Print "  python demo.py --compare";
             Print "";
             Prompt "Would you like to start in interactive mode? (y/N): ";
             Print "Run with --help for full usage information." ])
       rest (world s) (next_session s)).
Proof.
  intros Hin Hno. unfold demo_py. rewrite bind_print.
  change (printed s "🔐 KeePass Functions Demo Script")
    with (logged s [Print "🔐 KeePass Functions Demo Script"]).
  rewrite bind_print_logged. cbn [length Nat.eqb]. rewrite !bind_print_logged.
  rewrite (bind_input_line _ line rest) by exact Hin. cbv zeta. rewrite Hno.
  rewrite bind_print. unfold sys_exit, raise, printed, logged.
  cbn [trace stdin world next_session app]. rewrite <- !app_assoc. reflexivity.
Qed.

Lemma no_argument_declined_witness :
  (demo_py (sample_collab true true) ["demo.py"] (start [Line " No "; Line "6"])).1
  = Raise (SystemExit 0)
  /\ stdin (demo_py (sample_collab true true) ["demo.py"]
              (start [Line " No "; Line "6"])).2 = [Line "6"].
Proof.
  rewrite (no_argument_declined (sample_collab true true) "demo.py" " No "
             [Line "6"] (start [Line " No "; Line "6"]) eq_refl eq_refl).
  split; reflexivity.
Defined.

(** ** demo_minimalistic.py opens once *)

Section Minimal.
Context {W : Type} (c : Collab W).




End Minimal.

